(** * py-oscilloscope: the ring display buffer, the render tick and the key
    handler of [oscilloscope.py], and the axis conversions of
    [plothelpers.py], the capture callback [put_data] and the configuration
    that [main.py] builds, embedded as Rocq functions.

    Conventions of the embedding.
    - A numpy 2-D array is a list of rows together with its column count
      (numpy keeps the column count of an array that has no rows).
    - Samples range over any type with the arithmetic the source uses
      (class [Scalar]); two instances are given, exact rationals and IEEE
      binary64 ([PrimFloat]), the element type numpy computes with.
    - [window], [yzoom] and the axis limits are Python numbers: [window] starts
      as an int or a finite float and is only halved, doubled and compared, all
      exact on binary64 in the clamp range, so they are rationals here (a NaN
      configured window is outside this model).
    - A method of [Oscilloscope] mutates [self] and may raise: it is a function
      from the state to an outcome and the state left behind, also when it
      raises.
    - The capture thread is not modelled: a tick sees the queue as a list. *)

From Stdlib Require Import String DecimalString PrimFloat Uint63.
From Stdlib Require Import List ZArith QArith Qminmax Qround Lia Lqa Bool.
Import ListNotations.
Local Open Scope Z_scope.

(** ** Numbers *)

Class Scalar (T : Type) := {
  s_of_Z : Z -> T;
  s_add : T -> T -> T;
  s_mul : T -> T -> T;
  s_div : T -> T -> T
}.

#[export] Instance Scalar_Q : Scalar Q := {
  s_of_Z := inject_Z;
  s_add := Qplus;
  s_mul := Qmult;
  s_div := Qdiv
}.

Definition float_of_Z (z : Z) : float :=
  if z <? 0 then PrimFloat.opp (PrimFloat.of_uint63 (Uint63.of_Z (- z)))
  else PrimFloat.of_uint63 (Uint63.of_Z z).

#[export] Instance Scalar_float : Scalar float := {
  s_of_Z := float_of_Z;
  s_add := PrimFloat.add;
  s_mul := PrimFloat.mul;
  s_div := PrimFloat.div
}.

(** ** numpy operations used by the source *)

(** Python's builtin [min(a, b)] and [max(a, b)]: the first argument unless
    the second is strictly smaller (larger). *)
Definition py_min (a b : Q) : Q := if Qlt_le_dec b a then b else a.
Definition py_max (a b : Q) : Q := if Qlt_le_dec a b then b else a.

(** [np.roll(a, s)] along the first axis: element [i] of the result is element
    [(i - s) mod n] of [a]. *)
Definition np_roll {A : Type} (a : list A) (s : Z) : list A :=
  let n := Z.of_nat (length a) in
  if n =? 0 then a
  else let k := Z.to_nat ((- s) mod n) in skipn k a ++ firstn k a.

Record ndarray (T : Type) := mk_ndarray {
  nd_rows : list (list T);
  nd_ncols : nat
}.
Arguments mk_ndarray {T} _ _.
Arguments nd_rows {T} _.
Arguments nd_ncols {T} _.

(** [len(a)], the first component of [a.shape]. *)
Definition nd_len {T} (a : ndarray T) : nat := length (nd_rows a).

Definition nd_shape {T} (a : ndarray T) : nat * nat := (nd_len a, nd_ncols a).

(** [np.zeros((r, c))]. *)
Definition np_zeros {T} `{Scalar T} (r c : nat) : ndarray T :=
  mk_ndarray (repeat (repeat (s_of_Z 0) c) r) c.

(** [np.ones(n)]; a negative [n] raises in numpy and is not used here. *)
Definition np_ones {T} `{Scalar T} (n : Z) : list T :=
  repeat (s_of_Z 1) (Z.to_nat n).

Definition nd_roll {T} (a : ndarray T) (s : Z) : ndarray T :=
  mk_ndarray (np_roll (nd_rows a) s) (nd_ncols a).

(** [a[:, ch]] for [0 <= ch]: [None] stands for IndexError. *)
Definition nd_column {T} `{Scalar T} (a : ndarray T) (ch : nat) : option (list T) :=
  if (ch <? nd_ncols a)%nat
  then Some (map (fun r => nth ch r (s_of_Z 0)) (nd_rows a))
  else None.

Inductive exn : Type :=
| ValueError_broadcast (src dst : nat * nat)
| ValueError_convolve_empty
| ValueError_timebase
| IndexError.

(** numpy broadcasting of a source axis onto a target axis. *)
Definition axis_broadcasts (src dst : nat) : bool :=
  (src =? dst)%nat || (src =? 1)%nat.

Definition broadcast_axis {A} (src dst : nat) (l : list A) : list A :=
  if (src =? dst)%nat then l
  else match l with
       | x :: _ => repeat x dst
       | [] => []
       end.

(** The rows that [data] contributes to a target of shape [(t, c)]. *)
Definition broadcast_to {T} (data : ndarray T) (t c : nat) : list (list T) :=
  broadcast_axis (nd_len data) t
    (map (broadcast_axis (nd_ncols data) c) (nd_rows data)).

(** [a[-shift:, :] = data].  The slice [-shift:] starts at row 0 when
    [shift] is 0 (it is the slice [0:]) and at row [max (n - shift) 0]
    otherwise. *)
Definition nd_assign_tail {T} (a : ndarray T) (shift : nat) (data : ndarray T)
  : exn + ndarray T :=
  let n := nd_len a in
  let start := if (shift =? 0)%nat then 0%nat else (n - shift)%nat in
  let t := (n - start)%nat in
  if axis_broadcasts (nd_len data) t && axis_broadcasts (nd_ncols data) (nd_ncols a)
  then inr (mk_ndarray (firstn start (nd_rows a) ++ broadcast_to data t (nd_ncols a))
                       (nd_ncols a))
  else inl (ValueError_broadcast (nd_shape data) (t, nd_ncols a)).


(** The last [k] elements of a list. *)
Definition lastn {A} (k : nat) (l : list A) : list A :=
  skipn (length l - k) l.

(** ** The ring display buffer: lines 128-131 of [update_plot] *)

(** One block pushed into the buffer.  The roll is stored before the
    assignment is attempted, so a raise leaves the rolled buffer behind. *)
Definition push {T} (plotdata data : ndarray T) : option exn * ndarray T :=
  let shift := nd_len data in
  let rolled := nd_roll plotdata (- Z.of_nat shift) in
  match nd_assign_tail rolled shift data with
  | inl e => (Some e, rolled)
  | inr a => (None, a)
  end.

(** The [while True] loop: blocks are taken from the head of the queue until
    it is empty ([queue.Empty] breaks the loop) or a push raises. *)
Fixpoint drain {T} (q : list (ndarray T)) (plotdata : ndarray T)
  : option exn * (list (ndarray T) * ndarray T) :=
  match q with
  | [] => (None, ([], plotdata))
  | data :: rest =>
      match push plotdata data with
      | (Some e, pd) => (Some e, (rest, pd))
      | (None, pd) => drain rest pd
      end
  end.

(** ** The moving average: [np.convolve(col, np.ones(avg), "same") / avg] *)

(** Element [k] of the full convolution of [a] and [v]: the products
    [a[i] * v[k - i]] over the indices where both exist, summed in increasing
    [i] from zero.  (numpy leaves the order of this sum to its dot product;
    in exact arithmetic the order does not matter.) *)
Definition conv_at {T} `{Scalar T} (a v : list T) (k : nat) : T :=
  let lo := (k - (length v - 1))%nat in
  let hi := Nat.min k (length a - 1) in
  fold_left
    (fun acc i => s_add acc (s_mul (nth i a (s_of_Z 0)) (nth (k - i) v (s_of_Z 0))))
    (seq lo (S hi - lo)) (s_of_Z 0).

(** [np.convolve(a, v, "same")]: the longer argument comes first, an empty
    argument raises, and the result is the middle [max (len a) (len v)]
    elements of the full convolution. *)
Definition np_convolve_same {T} `{Scalar T} (a v : list T) : exn + list T :=
  let '(a, v) := if (length a <? length v)%nat then (v, a) else (a, v) in
  match a, v with
  | [], _ | _, [] => inl ValueError_convolve_empty
  | _, _ => inr (map (fun i => conv_at a v (i + (length v - 1) / 2))
                     (seq 0 (length a)))
  end.

(** The series shown for one buffer column (lines 135-144). *)
Definition display_series {T} `{Scalar T} (avg : Z) (col : list T) : exn + list T :=
  if avg >? 1 then
    match np_convolve_same col (np_ones avg) with
    | inl e => inl e
    | inr c => inr (np_roll (map (fun x => s_div x (s_of_Z avg)) c) avg)
    end
  else inr col.

(** The [for channel, line in enumerate(self.lines)] loop from index [ch]:
    the y-data of the lines, those before a raise already replaced. *)
Fixpoint update_lines {T} `{Scalar T} (plotdata : ndarray T) (avg : Z) (ch : nat)
  (lines : list (list T)) : option exn * list (list T) :=
  match lines with
  | [] => (None, [])
  | l :: rest =>
      match nd_column plotdata ch with
      | None => (Some IndexError, l :: rest)
      | Some col =>
          match display_series avg col with
          | inl e => (Some e, l :: rest)
          | inr y => let '(e, rest') := update_lines plotdata avg (S ch) rest in
                     (e, y :: rest')
          end
      end
  end.

(** ** The oscilloscope *)

Definition max_window : Q := 65536 # 1.
Definition min_window : Q := 16 # 1.
Definition max_yzoom : Q := 8 # 1.
Definition min_yzoom : Q := 1 # 1.

(** Rows of [plotdata]: [np.zeros((self.max_window, ...))]. *)
Definition capacity : nat := Z.to_nat 65536.

(** The text artist: ['(status)'] at first, then the format
    ['frame %d, time %.3f, window %d, average %d'] applied to its arguments. *)
Inductive status : Type :=
| Status_placeholder
| Status_line (frame : Z) (elapsed : Q) (window : Q) (avg : Z).

Record Oscilloscope (T : Type) := mk_osc {
  q : list (ndarray T);
  paused : bool;
  avg : Z;
  downsample : Z;
  interval : Q;
  channel_mapping : list Z;
  plotdata : ndarray T;
  lines : list (list T);
  status_text : status;
  xlim : Q * Q;
  ylim : Q * Q;
  window : Q;
  yzoom : Q;
  starttime : Q
}.
Arguments mk_osc {T}.
Arguments q {T}.
Arguments paused {T}.
Arguments avg {T}.
Arguments downsample {T}.
Arguments interval {T}.
Arguments channel_mapping {T}.
Arguments plotdata {T}.
Arguments lines {T}.
Arguments status_text {T}.
Arguments xlim {T}.
Arguments ylim {T}.
Arguments window {T}.
Arguments yzoom {T}.
Arguments starttime {T}.

Section Setters.
Context {T : Type}.
Implicit Type s : Oscilloscope T.

Definition set_q v s := mk_osc v (paused s) (avg s) (downsample s) (interval s)
  (channel_mapping s) (plotdata s) (lines s) (status_text s) (xlim s) (ylim s)
  (window s) (yzoom s) (starttime s).

Definition set_paused v s := mk_osc (q s) v (avg s) (downsample s) (interval s)
  (channel_mapping s) (plotdata s) (lines s) (status_text s) (xlim s) (ylim s)
  (window s) (yzoom s) (starttime s).

Definition set_avg v s := mk_osc (q s) (paused s) v (downsample s) (interval s)
  (channel_mapping s) (plotdata s) (lines s) (status_text s) (xlim s) (ylim s)
  (window s) (yzoom s) (starttime s).

Definition set_plotdata v s := mk_osc (q s) (paused s) (avg s) (downsample s)
  (interval s) (channel_mapping s) v (lines s) (status_text s) (xlim s) (ylim s)
  (window s) (yzoom s) (starttime s).

Definition set_lines v s := mk_osc (q s) (paused s) (avg s) (downsample s)
  (interval s) (channel_mapping s) (plotdata s) v (status_text s) (xlim s)
  (ylim s) (window s) (yzoom s) (starttime s).

Definition set_status_text v s := mk_osc (q s) (paused s) (avg s) (downsample s)
  (interval s) (channel_mapping s) (plotdata s) (lines s) v (xlim s) (ylim s)
  (window s) (yzoom s) (starttime s).

Definition set_xlim v s := mk_osc (q s) (paused s) (avg s) (downsample s)
  (interval s) (channel_mapping s) (plotdata s) (lines s) (status_text s) v
  (ylim s) (window s) (yzoom s) (starttime s).

Definition set_ylim v s := mk_osc (q s) (paused s) (avg s) (downsample s)
  (interval s) (channel_mapping s) (plotdata s) (lines s) (status_text s)
  (xlim s) v (window s) (yzoom s) (starttime s).

Definition set_window_field v s := mk_osc (q s) (paused s) (avg s) (downsample s)
  (interval s) (channel_mapping s) (plotdata s) (lines s) (status_text s)
  (xlim s) (ylim s) v (yzoom s) (starttime s).

Definition set_yzoom_field v s := mk_osc (q s) (paused s) (avg s) (downsample s)
  (interval s) (channel_mapping s) (plotdata s) (lines s) (status_text s)
  (xlim s) (ylim s) (window s) v (starttime s).
End Setters.

(** [set_window(window)]; [None] is the default argument. *)
Definition set_window {T} (w : option Q) (s : Oscilloscope T) : Oscilloscope T :=
  let s1 := match w with
            | Some w => set_window_field (py_max (py_min w max_window) min_window) s
            | None => s
            end in
  set_xlim (- window s1, 0)%Q s1.

(** [set_yzoom(yzoom)]. *)
Definition set_yzoom {T} (z : option Q) (s : Oscilloscope T) : Oscilloscope T :=
  let s1 := match z with
            | Some z => set_yzoom_field (py_max (py_min z max_yzoom) min_yzoom) s
            | None => s
            end in
  let lim := (1 / yzoom s1)%Q in
  set_ylim (- lim, lim)%Q s1.

(** [__init__(stream, window, downsample, interval, channels)] at time [now],
    with [setup_plot] inlined: one line per buffer column holding that column,
    the status placeholder, y limits [[-1, 1]]; the x limits that plotting
    autoscales to are replaced by [set_window()] before anything reads them. *)
Definition init {T} `{Scalar T} (stream_channels : nat) (w : Q) (dsample : Z)
  (ival : Q) (channels : list Z) (now : Q) : Oscilloscope T :=
  let pd := np_zeros capacity stream_channels in
  let lns := map (fun ch => map (fun r => nth ch r (s_of_Z 0)) (nd_rows pd))
                 (seq 0 stream_channels) in
  let s0 := mk_osc [] false 1 dsample ival (map (fun c => c - 1) channels)
              pd lns Status_placeholder (0, 1)%Q (- (1), 1)%Q w 1%Q now in
  let s1 := set_window None s0 in
  let s2 := set_yzoom None (set_yzoom_field 1%Q s1) in
  s2.

(** [self.q.put(block)], the last step of [put_data], for the block that the
    decimation and channel selection of [put_data] produce. *)
Definition q_put {T} (block : ndarray T) (s : Oscilloscope T) : Oscilloscope T :=
  set_q (q s ++ [block]) s.

Inductive outcome : Type :=
| Returned
| Raised (e : exn).

(** [update_plot(frame)], with [now] the value [time.time()] returns.  The
    list of artists the method returns is not modelled. *)
Definition update_plot {T} `{Scalar T} (frame : Z) (now : Q) (s : Oscilloscope T)
  : outcome * Oscilloscope T :=
  let '(e, (q', pd)) := drain (q s) (plotdata s) in
  let s1 := set_plotdata pd (set_q q' s) in
  match e with
  | Some e => (Raised e, s1)
  | None =>
      if negb (paused s1) then
        let '(e2, lns) := update_lines (plotdata s1) (avg s1) 0 (lines s1) in
        let s2 := set_lines lns s1 in
        match e2 with
        | Some e => (Raised e, s2)
        | None =>
            (Returned,
             set_status_text
               (Status_line frame (now - starttime s2)%Q (window s2) (avg s2)) s2)
        end
      else (Returned, s1)
  end.

(** [onkeypress(event)] for [event.key = key]; the [print] is left out. *)
Definition onkeypress {T} (key : string) (s : Oscilloscope T) : Oscilloscope T :=
  let s := if String.eqb key "p" then set_paused (negb (paused s)) s else s in
  let s := if String.eqb key "alt+-" then set_yzoom (Some (yzoom s / (2 # 1))%Q) s else s in
  let s := if String.eqb key "alt++" then set_yzoom (Some (yzoom s * (2 # 1))%Q) s else s in
  let s := if String.eqb key "-" then set_window (Some (window s * (2 # 1))%Q) s else s in
  let s := if String.eqb key "+" then set_window (Some (window s / (2 # 1))%Q) s else s in
  if String.eqb key "a" then
    if avg s =? 1 then set_avg 3 s
    else if avg s =? 3 then set_avg 5 s
    else set_avg 1 s
  else s.

(** ** [plothelpers.samples_time_conversion] *)

Definition samples_time_conversion {T} `{Scalar T} (samplerate : T) (timebase : string)
  : exn + ((T -> T) * (T -> T)) :=
  let factor :=
    if String.eqb timebase "ms" then Some 1000
    else if String.eqb timebase "s" then Some 1
    else None in
  match factor with
  | None => inl ValueError_timebase
  | Some factor =>
      let _sample2ms := fun samples => s_div (s_mul samples (s_of_Z factor)) samplerate in
      let _ms2samples := fun times => s_div (s_mul times samplerate) (s_of_Z factor) in
      inr (_sample2ms, _ms2samples)
  end.

(** ** Statements about the buffer *)

Arguments capacity : simpl never.

(** A block the buffer [plotdata] takes: at least one row, no more rows than
    the buffer, and the buffer's column count. *)
Definition fits {T} (plotdata data : ndarray T) : Prop :=
  (1 <= nd_len data)%nat /\ (nd_len data <= nd_len plotdata)%nat /\
  nd_ncols data = nd_ncols plotdata.

(** The rows of a sequence of blocks, in queue order. *)
Definition block_rows {T} (blocks : list (ndarray T)) : list (list T) :=
  concat (map nd_rows blocks).



(** ** States of a run *)

(** What a run does to the oscilloscope after construction: the capture
    callback enqueues a block, the timer fires a tick (the state a raising tick
    leaves behind counts too), or a key is pressed. *)
Inductive reachable_from {T} `{Scalar T} (s0 : Oscilloscope T)
  : Oscilloscope T -> Prop :=
| reach_start : reachable_from s0 s0
| reach_put s block : reachable_from s0 s -> reachable_from s0 (q_put block s)
| reach_tick s frame now :
    reachable_from s0 s -> reachable_from s0 (snd (update_plot frame now s))
| reach_key s key : reachable_from s0 s -> reachable_from s0 (onkeypress key s).

(** The states of every run, from every configuration. *)
Definition reachable {T} `{Scalar T} (s : Oscilloscope T) : Prop :=
  exists channels w dsample ival chans now,
    reachable_from (init channels w dsample ival chans now) s.

Definition window_in_range (w : Q) : Prop := (min_window <= w /\ w <= max_window)%Q.

Definition yzoom_in_range (z : Q) : Prop := (min_yzoom <= z /\ z <= max_yzoom)%Q.

(** What holds of the display in every reachable state. *)
Record display_invariant {T} (s : Oscilloscope T) : Prop := {
  inv_rows : nd_len (plotdata s) = capacity;
  inv_lines : length (lines s) = nd_ncols (plotdata s);
  inv_series : Forall (fun l => length l = capacity) (lines s);
  inv_avg : In (avg s) [1; 3; 5];
  inv_xlim : xlim s = (- window s, 0)%Q;
  inv_ylim : ylim s = (- (1 / yzoom s), 1 / yzoom s)%Q;
  inv_yzoom : yzoom_in_range (yzoom s)
}.

(** The columns of a buffer, in channel order. *)
Definition nd_columns {T} `{Scalar T} (a : ndarray T) : list (list T) :=
  map (fun ch => map (fun r => nth ch r (s_of_Z 0)) (nd_rows a)) (seq 0 (nd_ncols a)).

(** The spec's moving average of one column: the 'same' convolution with
    [avg] ones, divided by [avg], rolled forward by [avg]. *)
Definition is_rolled_average {T} `{Scalar T} (avg : Z) (col line : list T) : Prop :=
  exists c, np_convolve_same col (np_ones avg) = inr c /\
            line = np_roll (map (fun x => s_div x (s_of_Z avg)) c) avg.

(** The spec's table for the [a] key. *)
Definition avg_cycle (a : Z) : Z :=
  if a =? 1 then 3 else if a =? 3 then 5 else 1.

(** The spec's clamp of the window. *)
Definition clamp_window (w : Q) : Q := Qmax min_window (Qmin w max_window).



(** ** The capture side: [put_data] and the configuration of [main.py] *)

Inductive index_exn : Type :=
| ValueError_slice_step
| IndexError_axis (index : Z) (size : nat).

(** Every [d]-th element of [l], the first one after [skip] elements. *)
Fixpoint every_nth {A} (skip d : nat) (l : list A) : list A :=
  match l with
  | [] => []
  | x :: r =>
      match skip with
      | O => x :: every_nth (d - 1) d r
      | S k => every_nth k d r
      end
  end.

(** [l[::step]]: from the first element forwards for a positive step, from the
    last one backwards for a negative step; a zero step raises ValueError. *)
Definition py_slice_step {A} (step : Z) (l : list A) : option (list A) :=
  if step =? 0 then None
  else if 0 <? step then Some (every_nth 0 (Z.to_nat step) l)
  else Some (every_nth 0 (Z.to_nat (- step)) (rev l)).

(** An index into an axis of [size] elements; negative indices count from the
    end, and [None] is IndexError. *)
Definition py_index (size : nat) (i : Z) : option nat :=
  if (0 <=? i) && (i <? Z.of_nat size) then Some (Z.to_nat i)
  else if (- Z.of_nat size <=? i) && (i <? 0) then Some (Z.to_nat (i + Z.of_nat size))
  else None.

Fixpoint py_indices (size : nat) (idx : list Z) : index_exn + list nat :=
  match idx with
  | [] => inr []
  | i :: rest =>
      match py_index size i with
      | None => inl (IndexError_axis i size)
      | Some k =>
          match py_indices size rest with
          | inl e => inl e
          | inr ks => inr (k :: ks)
          end
      end
  end.

(** [a[::step, idx]] for a list [idx] of column indices. *)
Definition nd_decimate_select {T} `{Scalar T} (a : ndarray T) (step : Z)
  (idx : list Z) : index_exn + ndarray T :=
  match py_slice_step step (nd_rows a) with
  | None => inl ValueError_slice_step
  | Some rows =>
      match py_indices (nd_ncols a) idx with
      | inl e => inl e
      | inr ks =>
          inr (mk_ndarray
                 (map (fun r => map (fun k => nth k r (s_of_Z 0)) ks) rows)
                 (length idx))
      end
  end.

(** [put_data(data)]: a raise leaves the queue as it was. *)
Definition put_data {T} `{Scalar T} (data : ndarray T) (s : Oscilloscope T)
  : option index_exn * Oscilloscope T :=
  match nd_decimate_select data (downsample s) (channel_mapping s) with
  | inl e => (Some e, s)
  | inr block => (None, q_put block s)
  end.

Inductive main_exn : Type :=
| Parser_error_channel
| ValueError_max_empty.

(** Python's [max] of a list of ints; [None] for the empty list, where it
    raises ValueError. *)
Definition py_max_list (l : list Z) : option Z :=
  match l with
  | [] => None
  | x :: rest => Some (fold_left Z.max rest x)
  end.

(** [main.py]: [read_args] rejects a channel below 1, the stream is opened
    with [max(args.channels)] channels, and the oscilloscope is built over
    it. *)
Definition main_osc {T} `{Scalar T} (channels : list Z) (w : Q) (dsample : Z)
  (ival : Q) (now : Q) : main_exn + Oscilloscope T :=
  if existsb (fun c => c <? 1) channels then inl Parser_error_channel
  else match py_max_list channels with
       | None => inl ValueError_max_empty
       | Some m => inr (init (Z.to_nat m) w dsample ival channels now)
       end.

(** ** [setup_plot]: x values and legend *)

(** [np.arange(start, stop, 1)] over the integers. *)
Definition np_arange (start stop : Z) : list Z :=
  map (fun i => start + Z.of_nat i) (seq 0 (Z.to_nat (stop - start))).

(** [xvals = np.arange(-len(self.plotdata) + 1, 1, 1)] for a buffer of [n]
    rows. *)
Definition xvals (n : nat) : list Z := np_arange (- Z.of_nat n + 1) 1.

(** The labels of the legend, [f'channel {c}' for c in range(1, channels)];
    [None] when there is one channel or none, and no legend is made. *)
Definition legend_labels (stream_channels : nat) : option (list string) :=
  if (1 <? stream_channels)%nat
  then Some (map (fun c => String.append "channel "
                             (NilEmpty.string_of_uint (Nat.to_uint c)))
                 (seq 1 (stream_channels - 1)))
  else None.

(** An x value that lies inside the x limits [lim] of the axes. *)
Definition in_xlim (lim : Q * Q) (x : Z) : bool :=
  Qle_bool (fst lim) (inject_Z x) && Qle_bool (inject_Z x) (snd lim).

(** The x values of the lines, set once by [setup_plot] from the buffer as
    [__init__] builds it ([max_window] rows), that lie inside the x limits of
    state [s]. *)
Definition visible_xvals {T} (s : Oscilloscope T) : list Z :=
  filter (in_xlim (xlim s)) (xvals capacity).

(** ** Statements about the moving average *)

(** The mean of the [m] samples of [col] from index [lo] on. *)
Definition window_mean (col : list Q) (lo m : nat) : Q :=
  (fold_right Qplus 0 (map (fun j => nth j col 0) (seq lo m))
   / inject_Z (Z.of_nat m))%Q.

(** ** Concrete inputs *)

(** A one-channel block holding the given samples. *)
Definition column_block (l : list Z) : ndarray Q :=
  mk_ndarray (map (fun z => [inject_Z z]) l) 1.

(** The oscilloscope as [main.py] builds it by default: one channel, window
    1024, no downsampling, 30 ms between updates. *)
Definition default_osc : Oscilloscope Q := init 1 (1024 # 1) 1 (30 # 1) [1] 0.

(** * Properties *)

(** ** Lists: rolling and the last elements *)

Lemma np_roll_length {A} (a : list A) (s : Z) : length (np_roll a s) = length a.
Proof.
  unfold np_roll. destruct (Z.of_nat (length a) =? 0) eqn:E; [reflexivity|].
  apply Z.eqb_neq in E.
  assert (Hk : (Z.to_nat ((- s) mod Z.of_nat (length a)) <= length a)%nat).
  { pose proof (Z.mod_pos_bound (- s) (Z.of_nat (length a))). lia. }
  rewrite length_app, length_skipn, length_firstn. lia.
Qed.

Lemma np_roll_back {A} (a : list A) (k : nat) :
  (k <= length a)%nat ->
  np_roll a (- Z.of_nat k) = skipn k a ++ firstn k a.
Proof.
  intros Hk. unfold np_roll.
  destruct (Z.of_nat (length a) =? 0) eqn:E.
  - apply Z.eqb_eq in E. destruct a; [|discriminate].
    now rewrite skipn_nil, firstn_nil.
  - apply Z.eqb_neq in E. rewrite Z.opp_involutive.
    destruct (Nat.eq_dec k (length a)) as [->|Hne].
    + rewrite Z.mod_same by exact E. cbn [Z.to_nat skipn firstn].
      now rewrite skipn_all, firstn_all, app_nil_r.
    + rewrite Z.mod_small by lia. now rewrite Nat2Z.id.
Qed.

Lemma lastn_length {A} (k : nat) (l : list A) :
  (k <= length l)%nat -> length (lastn k l) = k.
Proof. intros H. unfold lastn. rewrite length_skipn. lia. Qed.


Lemma lastn_app_short {A} (k : nat) (l m : list A) :
  (length m <= k)%nat -> (k <= length l + length m)%nat ->
  lastn k (l ++ m) = lastn (k - length m) l ++ m.
Proof.
  intros H1 H2. unfold lastn. rewrite length_app, skipn_app.
  replace (length l + length m - k - length l)%nat with 0%nat by lia.
  replace (length l - (k - length m))%nat with (length l + length m - k)%nat by lia.
  reflexivity.
Qed.

Lemma lastn_lastn_app {A} (n : nat) (l m : list A) :
  (n <= length l)%nat -> lastn n (lastn n l ++ m) = lastn n (l ++ m).
Proof.
  intros H. unfold lastn at 1 3.
  rewrite !length_app, lastn_length by exact H.
  unfold lastn. rewrite !skipn_app, length_skipn.
  replace (n + length m - n - (length l - (length l - n)))%nat
    with (length l + length m - n - length l)%nat by lia.
  f_equal. rewrite skipn_skipn. f_equal. lia.
Qed.


(** ** One push *)

Section Push.
Context {T : Type}.
Implicit Types plotdata data : ndarray T.

Lemma nd_roll_len plotdata s : nd_len (nd_roll plotdata s) = nd_len plotdata.
Proof. unfold nd_len, nd_roll. cbn. apply np_roll_length. Qed.

Lemma broadcast_axis_same {A} (n : nat) (l : list A) : broadcast_axis n n l = l.
Proof. unfold broadcast_axis. now rewrite Nat.eqb_refl. Qed.

(** A block of between 1 and [len(plotdata)] rows, with the buffer's column
    count, replaces the oldest rows: the buffer becomes the last
    [len(plotdata)] rows of the old rows followed by the block. *)
Lemma push_ok plotdata data :
  (1 <= nd_len data)%nat -> (nd_len data <= nd_len plotdata)%nat ->
  nd_ncols data = nd_ncols plotdata ->
  push plotdata data =
  (None, mk_ndarray (lastn (nd_len plotdata) (nd_rows plotdata ++ nd_rows data))
                    (nd_ncols plotdata)).
Proof.
  intros H1 H2 Hc. unfold push, nd_assign_tail.
  rewrite nd_roll_len.
  destruct (nd_len data =? 0)%nat eqn:E0; [apply Nat.eqb_eq in E0; lia|].
  replace (nd_len plotdata - (nd_len plotdata - nd_len data))%nat
    with (nd_len data) by lia.
  unfold axis_broadcasts. rewrite Nat.eqb_refl. cbn [nd_roll nd_ncols].
  rewrite Hc, Nat.eqb_refl. cbn [orb andb nd_rows].
  unfold broadcast_to. rewrite Hc, broadcast_axis_same.
  rewrite (map_ext _ (fun r => r)) by (intros; apply broadcast_axis_same).
  rewrite map_id. do 2 f_equal.
  unfold nd_roll, nd_len in *. cbn [nd_rows]. rewrite np_roll_back by exact H2.
  rewrite firstn_app, length_skipn, Nat.sub_diag, firstn_O, app_nil_r.
  rewrite firstn_all2 by (rewrite length_skipn; lia).
  unfold lastn. rewrite length_app, skipn_app. f_equal.
  - f_equal. lia.
  - replace (length (nd_rows plotdata) + length (nd_rows data)
             - length (nd_rows plotdata) - length (nd_rows plotdata))%nat
      with 0%nat by lia. reflexivity.
Qed.

(** More rows than the buffer has: the assignment raises, and what is left is
    the rolled buffer, none of the block written. *)
Lemma push_too_long plotdata data :
  (nd_len plotdata < nd_len data)%nat -> (1 <= nd_len plotdata)%nat ->
  push plotdata data =
  (Some (ValueError_broadcast (nd_shape data) (nd_len plotdata, nd_ncols plotdata)),
   nd_roll plotdata (- Z.of_nat (nd_len data))).
Proof.
  intros H1 H2. unfold push, nd_assign_tail. rewrite nd_roll_len.
  destruct (nd_len data =? 0)%nat eqn:E0; [apply Nat.eqb_eq in E0; lia|].
  replace (nd_len plotdata - nd_len data)%nat with 0%nat by lia.
  rewrite Nat.sub_0_r. unfold axis_broadcasts.
  destruct (nd_len data =? nd_len plotdata)%nat eqn:E1;
    [apply Nat.eqb_eq in E1; lia|].
  destruct (nd_len data =? 1)%nat eqn:E2; [apply Nat.eqb_eq in E2; lia|].
  reflexivity.
Qed.

(** No rows at all: [-0:] is the whole buffer, so the assignment raises. *)
Lemma push_empty plotdata data :
  nd_len data = 0%nat -> (1 <= nd_len plotdata)%nat ->
  push plotdata data =
  (Some (ValueError_broadcast (nd_shape data) (nd_len plotdata, nd_ncols plotdata)),
   nd_roll plotdata 0).
Proof.
  intros H1 H2. unfold push, nd_assign_tail, nd_shape. rewrite nd_roll_len, H1.
  cbn [Nat.eqb Z.of_nat Z.opp]. rewrite Nat.sub_0_r. unfold axis_broadcasts.
  destruct (0 =? nd_len plotdata)%nat eqn:E1; [apply Nat.eqb_eq in E1; lia|].
  reflexivity.
Qed.

Lemma broadcast_to_length data (t c : nat) :
  axis_broadcasts (nd_len data) t = true -> length (broadcast_to data t c) = t.
Proof.
  unfold broadcast_to, broadcast_axis, axis_broadcasts, nd_len. intros Ha.
  destruct (length (nd_rows data) =? t)%nat eqn:E.
  - apply Nat.eqb_eq in E. now rewrite length_map.
  - cbn [orb] in Ha. apply Nat.eqb_eq in Ha.
    destruct (nd_rows data) as [|r rs]; [discriminate|].
    cbn [map]. apply repeat_length.
Qed.

(** A push that returns keeps the buffer's shape. *)
Lemma push_shape plotdata data pd :
  push plotdata data = (None, pd) ->
  nd_len pd = nd_len plotdata /\ nd_ncols pd = nd_ncols plotdata.
Proof.
  unfold push, nd_assign_tail. rewrite nd_roll_len.
  set (start := if (nd_len data =? 0)%nat then 0%nat
                else (nd_len plotdata - nd_len data)%nat).
  assert (Hs : (start <= nd_len plotdata)%nat)
    by (subst start; destruct (_ =? _)%nat; lia).
  destruct (axis_broadcasts (nd_len data) (nd_len plotdata - start)) eqn:Ea;
    cbn [andb]; [|discriminate].
  destruct (axis_broadcasts (nd_ncols data) _); [|discriminate].
  intros [= <-]. split; [|reflexivity].
  unfold nd_len at 1. cbn [nd_rows].
  rewrite length_app, length_firstn, broadcast_to_length by exact Ea.
  rewrite np_roll_length. fold (nd_len plotdata). lia.
Qed.

End Push.

(** ** Draining the queue *)

Section Drain.
Context {T : Type}.
Implicit Types plotdata data : ndarray T.
Implicit Types blocks : list (ndarray T).

Lemma lastn_all {A} (l : list A) : lastn (length l) l = l.
Proof. unfold lastn. now rewrite Nat.sub_diag. Qed.

(** Blocks that fit are all taken, and the buffer ends as the last
    [len(plotdata)] rows of everything it has seen. *)
Lemma drain_ok blocks : forall plotdata,
  Forall (fits plotdata) blocks ->
  drain blocks plotdata =
  (None, ([], mk_ndarray
                (lastn (nd_len plotdata) (nd_rows plotdata ++ block_rows blocks))
                (nd_ncols plotdata))).
Proof.
  induction blocks as [|b bs IH]; intros plotdata Hf.
  - cbn [drain block_rows map concat]. rewrite app_nil_r.
    unfold nd_len. rewrite lastn_all. now destruct plotdata.
  - inversion Hf as [|? ? [H1 [H2 Hc]] Hrest]; subst.
    cbn [drain]. rewrite push_ok by assumption.
    set (pd1 := mk_ndarray _ _).
    assert (Hlen : nd_len pd1 = nd_len plotdata).
    { unfold pd1, nd_len at 1. cbn [nd_rows].
      apply lastn_length. rewrite length_app. unfold nd_len. lia. }
    rewrite IH.
    + rewrite Hlen. unfold pd1 at 1 2. cbn [nd_rows nd_ncols].
      rewrite lastn_lastn_app by (rewrite length_app; unfold nd_len; lia).
      unfold block_rows. cbn [map concat]. now rewrite <- app_assoc.
    + eapply Forall_impl; [|exact Hrest].
      intros a [Ha1 [Ha2 Ha3]]. unfold fits. rewrite Hlen. now subst pd1.
Qed.

Lemma drain_app blocks : forall plotdata rest pd,
  drain blocks plotdata = (None, ([], pd)) ->
  drain (blocks ++ rest) plotdata = drain rest pd.
Proof.
  induction blocks as [|b bs IH]; intros plotdata rest pd Hd.
  - cbn [drain] in Hd. injection Hd as <-. reflexivity.
  - cbn [drain app] in *. destruct (push plotdata b) as [[e|] pd1].
    + discriminate.
    + now apply IH.
Qed.

(** A drain that does not raise leaves the queue empty. *)
Lemma drain_returns_empty blocks : forall plotdata q' pd,
  drain blocks plotdata = (None, (q', pd)) -> q' = [].
Proof.
  induction blocks as [|b bs IH]; intros plotdata q' pd Hd; cbn [drain] in Hd.
  - now injection Hd as <- _.
  - destruct (push plotdata b) as [[e|] pd1]; [discriminate|]. eapply IH, Hd.
Qed.

(** The buffer keeps its shape through a drain, raised or not. *)
Lemma drain_shape blocks : forall plotdata e q' pd,
  drain blocks plotdata = (e, (q', pd)) ->
  nd_len pd = nd_len plotdata /\ nd_ncols pd = nd_ncols plotdata.
Proof.
  induction blocks as [|b bs IH]; intros plotdata e q' pd Hd; cbn [drain] in Hd.
  - injection Hd as _ _ <-. now split.
  - destruct (push plotdata b) as [[e1|] pd1] eqn:Hp.
    + injection Hd as _ _ <-. unfold push in Hp.
      destruct (nd_assign_tail _ _ _); [|discriminate].
      injection Hp as _ <-. split; [apply nd_roll_len|reflexivity].
    + apply push_shape in Hp. apply IH in Hd. destruct Hp, Hd. split; congruence.
Qed.

End Drain.

(** ** The tick and the buffer *)

Section Tick.
Context {T : Type} `{Scalar T}.
Implicit Types s : Oscilloscope T.

(** Whatever else a tick does, the queue and the buffer it leaves are those
    of the drain loop. *)
Lemma update_plot_buffer frame now s :
  (q (snd (update_plot frame now s)), plotdata (snd (update_plot frame now s)))
  = snd (drain (q s) (plotdata s)).
Proof.
  unfold update_plot.
  destruct (drain (q s) (plotdata s)) as [e [q' pd]].
  destruct e as [e|]; [reflexivity|].
  cbn [set_plotdata set_q paused negb].
  destruct (paused s); cbn [negb]; [reflexivity|].
  destruct (update_lines _ _ _ _) as [e2 lns].
  destruct e2; reflexivity.
Qed.

(** A raise in the drain loop ends the tick there. *)
Lemma update_plot_drain_raises frame now s e q' pd :
  drain (q s) (plotdata s) = (Some e, (q', pd)) ->
  update_plot frame now s = (Raised e, set_plotdata pd (set_q q' s)).
Proof. intros Hd. unfold update_plot. now rewrite Hd. Qed.

Lemma np_zeros_len (r c : nat) : nd_len (np_zeros (T := T) r c) = r.
Proof. unfold nd_len, np_zeros. cbn [nd_rows]. apply repeat_length. Qed.


End Tick.



(** C8: a drained block with more rows than the capacity 65536 makes the tick
    raise the broadcast error that names both shapes; the blocks after it stay
    queued, the buffer holds its old rows (rolled, none overwritten and none of
    the block written), and the lines and the status text are untouched. *)
Theorem oversized_block_raises {T} `{Scalar T} (s : Oscilloscope T)
  (frame : Z) (now : Q) (pre post : list (ndarray T)) (data pd : ndarray T) :
  q s = pre ++ data :: post ->
  drain pre (plotdata s) = (None, ([], pd)) ->
  nd_len (plotdata s) = capacity ->
  (capacity < nd_len data)%nat ->
  update_plot frame now s =
  (Raised (ValueError_broadcast (nd_shape data) (capacity, nd_ncols (plotdata s))),
   set_plotdata (nd_roll pd (- Z.of_nat (nd_len data))) (set_q post s)).
Proof.
  intros Hq Hpre Hn Hbig. unfold update_plot.
  destruct (drain_shape _ _ _ _ _ Hpre) as [Hl Hc].
  rewrite Hq, (drain_app _ _ _ _ Hpre). cbn [drain].
  rewrite push_too_long by (rewrite Hl, Hn; first [exact Hbig | unfold capacity; lia]).
  rewrite Hl, Hn, Hc. reflexivity.
Qed.


Lemma capacity_pos : (1 <= capacity)%nat.
Proof. unfold capacity. lia. Qed.





Lemma oversized_block_raises_witness :
  let big : ndarray Q := mk_ndarray (repeat [1 # 1]%Q (S capacity)) 1 in
  update_plot 0 0 (q_put big default_osc) =
  (Raised (ValueError_broadcast (S capacity, 1%nat) (capacity, 1%nat)),
   set_plotdata (nd_roll (np_zeros capacity 1) (- Z.of_nat (S capacity)))
     (set_q [] (q_put big default_osc))).
Proof.
  cbv zeta.
  set (big := mk_ndarray (repeat [1 # 1]%Q (S capacity)) 1).
  assert (Hbig : nd_len big = S capacity) by apply repeat_length.
  rewrite (oversized_block_raises (q_put big default_osc) 0 0 [] [] big
             (np_zeros capacity 1)).
  - unfold nd_shape. rewrite Hbig. reflexivity.
  - reflexivity.
  - reflexivity.
  - apply (np_zeros_len (T := Q)).
  - rewrite Hbig. apply Nat.lt_succ_diag_r.
Defined.

(** ** Pause *)

(** C3: when paused is true, a tick still drains the queue into the buffer
    (the queue and the buffer after it are those of the drain loop, and hold
    every queued block when the blocks fit), while the y-data of every line
    and the status text are exactly as before: the state after the tick is the
    state before it with only the queue and the buffer replaced. *)
Theorem paused_tick_only_buffer {T} `{Scalar T} (s : Oscilloscope T)
  (frame : Z) (now : Q) :
  paused s = true ->
  let r := update_plot frame now s in
  lines (snd r) = lines s /\ status_text (snd r) = status_text s /\
  snd r = set_plotdata (plotdata (snd r)) (set_q (q (snd r)) s) /\
  (q (snd r), plotdata (snd r)) = snd (drain (q s) (plotdata s)) /\
  (Forall (fits (plotdata s)) (q s) ->
   fst r = Returned /\ q (snd r) = [] /\
   nd_rows (plotdata (snd r))
   = lastn (nd_len (plotdata s)) (nd_rows (plotdata s) ++ block_rows (q s))).
Proof.
  intros Hp r. subst r.
  assert (Hr : update_plot frame now s =
               (match fst (drain (q s) (plotdata s)) with
                | Some e => Raised e
                | None => Returned
                end,
                set_plotdata (snd (snd (drain (q s) (plotdata s))))
                  (set_q (fst (snd (drain (q s) (plotdata s)))) s))).
  { unfold update_plot. destruct (drain (q s) (plotdata s)) as [[e|] [q' pd]];
      [reflexivity|].
    cbn [set_plotdata set_q paused fst snd]. now rewrite Hp. }
  rewrite Hr. cbn [fst snd set_plotdata set_q lines status_text q plotdata].
  split; [reflexivity|]. split; [reflexivity|]. split; [reflexivity|]. split.
  - now destruct (drain (q s) (plotdata s)) as [e [q' pd]].
  - intros Hfit. rewrite (drain_ok _ _ Hfit). repeat split.
Qed.

Lemma paused_tick_only_buffer_witness :
  let s := onkeypress "p" (q_put (column_block [1; 2]) default_osc) in
  paused s = true /\
  lines (snd (update_plot 3 (1 # 4) s)) = lines s /\
  status_text (snd (update_plot 3 (1 # 4) s)) = Status_placeholder.
Proof.
  cbv zeta.
  pose proof (paused_tick_only_buffer
                (onkeypress "p" (q_put (column_block [1; 2]) default_osc))
                3 (1 # 4) eq_refl) as [Hl [Hs _]].
  split; [reflexivity|]. split; [exact Hl|exact Hs].
Defined.

(** ** Keys *)

Section Keys.
Context {T : Type}.
Implicit Types s : Oscilloscope T.

Lemma avg_after_a s : avg (onkeypress "a" s) = avg_cycle (avg s).
Proof.
  unfold onkeypress, avg_cycle. cbn [String.eqb Ascii.eqb Bool.eqb].
  destruct (avg s =? 1); [reflexivity|]. now destruct (avg s =? 3).
Qed.

Lemma window_after_plus s :
  window (onkeypress "+" s)
  = py_max (py_min (window s / (2 # 1)) max_window) min_window.
Proof. reflexivity. Qed.

Lemma window_after_minus s :
  window (onkeypress "-" s)
  = py_max (py_min (window s * (2 # 1)) max_window) min_window.
Proof. reflexivity. Qed.

Lemma yzoom_after_alt_plus s :
  yzoom (onkeypress "alt++" s)
  = py_max (py_min (yzoom s * (2 # 1)) max_yzoom) min_yzoom.
Proof. reflexivity. Qed.

Lemma yzoom_after_alt_minus s :
  yzoom (onkeypress "alt+-" s)
  = py_max (py_min (yzoom s / (2 # 1)) max_yzoom) min_yzoom.
Proof. reflexivity. Qed.

End Keys.

Lemma avg_cycle_values (a : Z) : In (avg_cycle a) [1; 3; 5].
Proof.
  unfold avg_cycle. destruct (a =? 1); [cbn; tauto|].
  destruct (a =? 3); cbn; tauto.
Qed.

(** Python's clamp [max(min(x, hi), lo)] lands in [[lo, hi]] when [lo <= hi]. *)
Lemma py_clamp_range (x lo hi : Q) :
  (lo <= hi)%Q ->
  (lo <= py_max (py_min x hi) lo /\ py_max (py_min x hi) lo <= hi)%Q.
Proof.
  intros Hlh. unfold py_max, py_min.
  destruct (Qlt_le_dec hi x) as [H1|H1];
    destruct (Qlt_le_dec _ lo) as [H2|H2]; split;
    solve [apply Qle_refl | assumption | apply Qlt_le_weak; assumption].
Qed.

Lemma py_clamp_spec (x lo hi : Q) :
  (lo <= hi)%Q -> (py_max (py_min x hi) lo == Qmax lo (Qmin x hi))%Q.
Proof.
  intros Hlh. unfold py_max, py_min.
  destruct (Qlt_le_dec hi x) as [H1|H1].
  - rewrite (Q.min_r x hi) by (apply Qlt_le_weak, H1).
    destruct (Qlt_le_dec hi lo) as [H2|H2].
    + exfalso. apply (Qlt_irrefl hi). eapply Qlt_le_trans; eassumption.
    + now rewrite Q.max_r.
  - rewrite (Q.min_l x hi) by exact H1.
    destruct (Qlt_le_dec x lo) as [H2|H2].
    + rewrite Q.max_l; [reflexivity|apply Qlt_le_weak, H2].
    + now rewrite Q.max_r.
Qed.

(** C7: for any starting value, a press of the a key maps avg 1 to 3, 3 to 5
    and any other value to 1; after one press avg is in {1, 3, 5}, and further
    presses follow the cycle 1, 3, 5, 1. *)
Theorem a_key_cycles_avg {T} (s : Oscilloscope T) :
  avg (onkeypress "a" s) = avg_cycle (avg s) /\
  (avg_cycle 1 = 3 /\ avg_cycle 3 = 5 /\ avg_cycle 5 = 1 /\
   forall a, a <> 1 /\ a <> 3 -> avg_cycle a = 1) /\
  (forall n, In (avg (Nat.iter (S n) (onkeypress "a") s)) [1; 3; 5]) /\
  (forall n, avg (Nat.iter n (onkeypress "a") s) = Nat.iter n avg_cycle (avg s)).
Proof.
  split; [apply avg_after_a|]. split; [|split].
  - repeat split. intros a [H1 H3]. unfold avg_cycle.
    destruct (Z.eqb_spec a 1); [contradiction|].
    destruct (Z.eqb_spec a 3); [contradiction|reflexivity].
  - intros n. rewrite Nat.iter_succ, avg_after_a. apply avg_cycle_values.
  - induction n as [|n IH]; [reflexivity|].
    now rewrite !Nat.iter_succ, avg_after_a, IH.
Qed.

(** ** What every reachable state satisfies *)

Section Invariant.
Context {T : Type} `{Scalar T}.
Implicit Types s : Oscilloscope T.

Lemma yzoom_bounds : (min_yzoom <= max_yzoom)%Q.
Proof. unfold min_yzoom, max_yzoom, Qle. cbn. lia. Qed.

Lemma window_bounds : (min_window <= max_window)%Q.
Proof. unfold min_window, max_window, Qle. cbn. lia. Qed.

Lemma inv_init channels w dsample ival chans now :
  display_invariant (init channels w dsample ival chans now).
Proof.
  constructor.
  - change (plotdata (init channels w dsample ival chans now))
      with (np_zeros (T := T) capacity channels).
    apply np_zeros_len.
  - cbn [init lines plotdata set_window set_yzoom set_xlim set_ylim
         set_yzoom_field np_zeros nd_ncols].
    now rewrite length_map, length_seq.
  - cbn [init lines plotdata set_window set_yzoom set_xlim set_ylim
         set_yzoom_field np_zeros nd_rows].
    apply Forall_forall. intros l Hin.
    apply in_map_iff in Hin as [ch [<- _]].
    now rewrite length_map, repeat_length.
  - left. reflexivity.
  - reflexivity.
  - reflexivity.
  - split; unfold min_yzoom, max_yzoom, Qle; cbn; lia.
Qed.

Lemma inv_q_put s block : display_invariant s -> display_invariant (q_put block s).
Proof. intros [? ? ? ? ? ? ?]. now constructor. Qed.

Lemma inv_set_paused s b : display_invariant s -> display_invariant (set_paused b s).
Proof. intros [? ? ? ? ? ? ?]. now constructor. Qed.

Lemma inv_set_avg s a :
  In a [1; 3; 5] -> display_invariant s -> display_invariant (set_avg a s).
Proof. intros Ha [? ? ? ? ? ? ?]. now constructor. Qed.

Lemma inv_set_window s w :
  display_invariant s -> display_invariant (set_window (Some w) s).
Proof. intros [? ? ? ? ? ? ?]. now constructor. Qed.

Lemma inv_set_yzoom s z :
  display_invariant s -> display_invariant (set_yzoom (Some z) s).
Proof.
  intros [? ? ? ? ? ? ?]. constructor; try assumption; try reflexivity.
  apply py_clamp_range, yzoom_bounds.
Qed.

Lemma inv_onkeypress s key :
  display_invariant s -> display_invariant (onkeypress key s).
Proof.
  intros Hs. unfold onkeypress.
  set (s1 := if String.eqb key "p" then _ else _).
  assert (H1 : display_invariant s1)
    by (subst s1; destruct (String.eqb key "p"); auto using inv_set_paused).
  clearbody s1.
  set (s2 := if String.eqb key "alt+-" then _ else _).
  assert (H2 : display_invariant s2)
    by (subst s2; destruct (String.eqb key "alt+-"); auto using inv_set_yzoom).
  clearbody s2.
  set (s3 := if String.eqb key "alt++" then _ else _).
  assert (H3 : display_invariant s3)
    by (subst s3; destruct (String.eqb key "alt++"); auto using inv_set_yzoom).
  clearbody s3.
  set (s4 := if String.eqb key "-" then _ else _).
  assert (H4 : display_invariant s4)
    by (subst s4; destruct (String.eqb key "-"); auto using inv_set_window).
  clearbody s4.
  set (s5 := if String.eqb key "+" then _ else _).
  assert (H5 : display_invariant s5)
    by (subst s5; destruct (String.eqb key "+"); auto using inv_set_window).
  clearbody s5.
  destruct (String.eqb key "a"); [|exact H5].
  destruct (avg s5 =? 1); [apply inv_set_avg; [cbn; tauto|exact H5]|].
  destruct (avg s5 =? 3); apply inv_set_avg; solve [cbn; tauto|exact H5].
Qed.

End Invariant.

(** ** The displayed series *)

Section Series.
Context {T : Type} `{Scalar T}.
Implicit Types (s : Oscilloscope T) (plotdata : ndarray T) (col : list T).

Lemma np_convolve_same_length (a v c : list T) :
  np_convolve_same a v = inr c -> length c = Nat.max (length a) (length v).
Proof.
  unfold np_convolve_same.
  destruct (length a <? length v)%nat eqn:E;
    [apply Nat.ltb_lt in E | apply Nat.ltb_ge in E];
    destruct a as [|x a], v as [|y v]; try discriminate;
    intros [= <-]; cbn [length] in *; rewrite length_map, length_seq; lia.
Qed.

Lemma np_convolve_same_total (a v : list T) :
  a <> [] -> v <> [] -> exists c, np_convolve_same a v = inr c.
Proof.
  intros Ha Hv. unfold np_convolve_same.
  destruct (length a <? length v)%nat;
    destruct a as [|x a], v as [|y v]; try contradiction; eexists; reflexivity.
Qed.

Lemma display_series_length (avg : Z) col y :
  display_series avg col = inr y ->
  (1 < avg -> (Z.to_nat avg <= length col)%nat) ->
  length y = length col.
Proof.
  unfold display_series. destruct (Z.gtb_spec avg 1) as [Hgt|Hle].
  - destruct (np_convolve_same col (np_ones avg)) as [e|c] eqn:Ec; [discriminate|].
    intros [= <-] Hb. specialize (Hb Hgt).
    rewrite np_roll_length, length_map, (np_convolve_same_length _ _ _ Ec).
    unfold np_ones. rewrite repeat_length. lia.
  - now intros [= <-] _.
Qed.

Lemma display_series_total (avg : Z) col :
  In avg [1; 3; 5] -> col <> [] -> exists y, display_series avg col = inr y.
Proof.
  intros Ha Hc. unfold display_series.
  destruct (Z.gtb_spec avg 1) as [Hgt|Hle]; [|eexists; reflexivity].
  destruct (np_convolve_same_total col (np_ones avg) Hc) as [c ->].
  - destruct Ha as [<-|[<-|[<-|[]]]]; discriminate.
  - eexists; reflexivity.
Qed.

Lemma nd_column_spec plotdata ch :
  (ch < nd_ncols plotdata)%nat ->
  nd_column plotdata ch = Some (nth ch (nd_columns plotdata) []).
Proof.
  intros Hch. unfold nd_column, nd_columns.
  destruct (Nat.ltb_spec ch (nd_ncols plotdata)); [|lia].
  f_equal. symmetry.
  rewrite (nth_indep _ [] (map (fun r => nth 0 r (s_of_Z 0)) (nd_rows plotdata)))
    by now rewrite length_map, length_seq.
  rewrite (map_nth (fun ch => map (fun r => nth ch r (s_of_Z 0)) (nd_rows plotdata))
             (seq 0 (nd_ncols plotdata)) 0%nat ch).
  now rewrite seq_nth.
Qed.

Lemma nd_columns_length plotdata : length (nd_columns plotdata) = nd_ncols plotdata.
Proof. unfold nd_columns. now rewrite length_map, length_seq. Qed.

Lemma nd_columns_rows plotdata :
  Forall (fun c => length c = nd_len plotdata) (nd_columns plotdata).
Proof.
  unfold nd_columns. apply Forall_forall. intros c Hin.
  apply in_map_iff in Hin as [ch [<- _]]. apply length_map.
Qed.

Lemma skipn_cons_nth {A} (l : list A) (k : nat) (d : A) :
  (k < length l)%nat -> skipn k l = nth k l d :: skipn (S k) l.
Proof.
  revert k. induction l as [|x l IH]; intros k Hk; cbn [length] in Hk; [lia|].
  destruct k as [|k]; [reflexivity|].
  cbn [skipn nth]. apply IH. lia.
Qed.

(** The loop over the lines keeps their number and, for an averaging span
    that fits the buffer, their length. *)
Lemma update_lines_shape plotdata (avg : Z) (n : nat) :
  nd_len plotdata = n -> (1 < avg -> (Z.to_nat avg <= n)%nat) ->
  forall ls ch e lns,
    Forall (fun l => length l = n) ls ->
    update_lines plotdata avg ch ls = (e, lns) ->
    length lns = length ls /\ Forall (fun l => length l = n) lns.
Proof.
  intros Hn Havg. induction ls as [|l rest IH]; intros ch e lns Hls Hu;
    cbn [update_lines] in Hu.
  - injection Hu as _ <-. now split.
  - unfold nd_column in Hu at 1.
    destruct (ch <? nd_ncols plotdata)%nat; [|injection Hu as _ <-; now split].
    destruct (display_series avg _) as [e1|y] eqn:Ey;
      [injection Hu as _ <-; now split|].
    destruct (update_lines plotdata avg (S ch) rest) as [e2 rest'] eqn:Er.
    injection Hu as _ <-. inversion Hls as [|? ? Hl Hrest]; subst.
    destruct (IH _ _ _ Hrest Er) as [IH1 IH2]. split; [cbn; lia|].
    constructor; [|exact IH2].
    rewrite (display_series_length _ _ _ Ey); rewrite length_map; auto.
Qed.

(** With one line per column of a non-empty buffer and a span among 1, 3, 5
    the loop does not raise, and each line gets the series of its column. *)
Lemma update_lines_ok plotdata (avg : Z) :
  (1 <= nd_len plotdata)%nat -> In avg [1; 3; 5] ->
  forall ls ch, (ch + length ls = nd_ncols plotdata)%nat ->
    exists lns, update_lines plotdata avg ch ls = (None, lns) /\
                Forall2 (fun col line => display_series avg col = inr line)
                        (skipn ch (nd_columns plotdata)) lns.
Proof.
  intros Hn Havg. induction ls as [|l rest IH]; intros ch Hch;
    cbn [update_lines length] in *.
  - exists []. split; [reflexivity|].
    rewrite skipn_all2 by (rewrite nd_columns_length; lia). constructor.
  - rewrite nd_column_spec by lia.
    rewrite (skipn_cons_nth (nd_columns plotdata) ch [])
      by (rewrite nd_columns_length; lia).
    set (col := nth ch (nd_columns plotdata) []).
    assert (Hcol : col <> []).
    { assert (Hl : length col = nd_len plotdata).
      { pose proof (nd_columns_rows plotdata) as Hall.
        rewrite Forall_forall in Hall. apply Hall. subst col.
        apply nth_In. rewrite nd_columns_length. lia. }
      intros E. rewrite E in Hl. cbn in Hl. lia. }
    destruct (display_series_total avg col Havg Hcol) as [y Hy]. rewrite Hy.
    destruct (IH (S ch)) as [lns [Hu Hall]]; [lia|].
    rewrite Hu. exists (y :: lns). split; [reflexivity|].
    now constructor.
Qed.

End Series.

(** ** Ticks in reachable states *)

Section Reachable.
Context {T : Type} `{Scalar T}.
Implicit Types s : Oscilloscope T.

(** A tick touches neither the view parameters nor the axis limits. *)
Lemma update_plot_view frame now s :
  let s' := snd (update_plot frame now s) in
  window s' = window s /\ yzoom s' = yzoom s /\ xlim s' = xlim s /\
  ylim s' = ylim s /\ avg s' = avg s /\ paused s' = paused s.
Proof.
  destruct s as [sq sp sa sd si sc spd sl sst sx sy sw sz st].
  unfold update_plot. cbn [q plotdata].
  destruct (drain sq spd) as [[e|] [q' pd]]; [cbn; repeat split|].
  unfold set_plotdata, set_q. cbn [paused lines plotdata avg].
  destruct sp; [cbn; repeat split|]. cbn [negb].
  destruct (update_lines pd sa 0 sl) as [[e2|] lns]; cbn; repeat split.
Qed.

Lemma avg_span_fits (a : Z) : In a [1; 3; 5] -> 1 < a -> (Z.to_nat a <= capacity)%nat.
Proof.
  intros Ha _. unfold capacity.
  destruct Ha as [<-|[<-|[<-|[]]]]; lia.
Qed.

Lemma inv_update_plot frame now s :
  display_invariant s -> display_invariant (snd (update_plot frame now s)).
Proof.
  destruct s as [sq sp sa sd si sc spd sl sst sx sy sw sz st].
  intros [Hrows Hlines Hser Havg Hx Hy Hz].
  cbn [plotdata lines avg xlim ylim window yzoom] in *.
  unfold update_plot. cbn [q plotdata].
  destruct (drain sq spd) as [e [q' pd]] eqn:Hd.
  destruct (drain_shape _ _ _ _ _ Hd) as [Hl Hc].
  unfold set_plotdata, set_q. cbn [paused lines plotdata avg].
  destruct e as [e|];
    [constructor; cbn [snd plotdata lines avg xlim ylim window yzoom];
     try assumption; congruence|].
  destruct sp; cbn [negb];
    [constructor; cbn [snd plotdata lines avg xlim ylim window yzoom];
     try assumption; congruence|].
  destruct (update_lines pd sa 0 sl) as [e2 lns] eqn:Hu.
  apply (update_lines_shape pd sa capacity) in Hu;
    [|congruence|now apply avg_span_fits|exact Hser].
  destruct Hu as [Hlen Hall].
  destruct e2 as [e2|]; cbn [snd];
    constructor;
    cbn [set_status_text set_lines plotdata lines avg xlim ylim window yzoom];
    try assumption; congruence.
Qed.

Lemma reachable_from_invariant s0 s :
  display_invariant s0 -> reachable_from s0 s -> display_invariant s.
Proof.
  intros H0 Hr. induction Hr as [|s b _ IH|s frame now _ IH|s key _ IH].
  - exact H0.
  - now apply inv_q_put.
  - now apply inv_update_plot.
  - now apply inv_onkeypress.
Qed.

Lemma reachable_invariant s : reachable s -> display_invariant s.
Proof.
  intros (channels & w & d & i & chs & now & Hr).
  eapply reachable_from_invariant; [apply inv_init|exact Hr].
Qed.

Lemma reachable_tick s frame now :
  reachable s -> reachable (snd (update_plot frame now s)).
Proof.
  intros (channels & w & d & i & chs & t & Hr).
  exists channels, w, d, i, chs, t. now apply reach_tick.
Qed.

(** In a state that satisfies the invariant, a tick whose drain does not
    raise returns, and when not paused it gives each line the series of its
    column of the drained buffer. *)
Lemma update_plot_returns frame now s :
  display_invariant s -> fst (drain (q s) (plotdata s)) = None ->
  fst (update_plot frame now s) = Returned /\
  (paused s = false ->
   Forall2 (fun col line => display_series (avg s) col = inr line)
     (nd_columns (plotdata (snd (update_plot frame now s))))
     (lines (snd (update_plot frame now s)))).
Proof.
  destruct s as [sq sp sa sd si sc spd sl sst sx sy sw sz st].
  intros [Hrows Hlines Hser Havg Hx Hy Hz].
  cbn [plotdata lines avg xlim ylim window yzoom q paused] in *.
  intros Hnone. unfold update_plot. cbn [q plotdata].
  destruct (drain sq spd) as [e [q' pd]] eqn:Hd.
  cbn [fst] in Hnone. subst e.
  destruct (drain_shape _ _ _ _ _ Hd) as [Hl Hc].
  unfold set_plotdata, set_q. cbn [paused lines plotdata avg].
  destruct sp; cbn [negb]; [split; [reflexivity|discriminate]|].
  destruct (update_lines_ok pd sa) with (ls := sl) (ch := 0%nat)
    as [lns [Hu Hall]].
  - rewrite Hl, Hrows. unfold capacity. lia.
  - exact Havg.
  - cbn [Nat.add]. congruence.
  - rewrite Hu. cbn [fst snd set_status_text set_lines plotdata lines].
    split; [reflexivity|]. intros _. exact Hall.
Qed.

End Reachable.

(** ** The claims about the display *)

Lemma Forall2_eq_list {A} (l l' : list A) : Forall2 eq l l' -> l = l'.
Proof. induction 1; congruence. Qed.

Lemma default_osc_reachable : reachable default_osc.
Proof. exists 1%nat, (1024 # 1)%Q, 1, (30 # 1)%Q, [1], 0%Q. constructor. Qed.

(** C5: on an unpaused tick in a reachable state whose drain does not raise,
    the tick returns and every line shows its column of the drained buffer:
    the raw samples when avg is 1, and when avg > 1 the 'same' convolution of
    the column with avg ones, divided by avg and rolled forward by avg. *)
Theorem unpaused_tick_displays {T} `{Scalar T} (s : Oscilloscope T)
  (frame : Z) (now : Q) :
  reachable s -> paused s = false ->
  fst (drain (q s) (plotdata s)) = None ->
  let r := update_plot frame now s in
  fst r = Returned /\
  (avg s = 1 -> lines (snd r) = nd_columns (plotdata (snd r))) /\
  (1 < avg s ->
   Forall2 (is_rolled_average (avg s)) (nd_columns (plotdata (snd r))) (lines (snd r))).
Proof.
  intros Hr Hp Hd r. subst r.
  destruct (update_plot_returns frame now s (reachable_invariant s Hr) Hd)
    as [Hret Hall].
  specialize (Hall Hp). split; [exact Hret|]. split.
  - intros Ha. rewrite Ha in Hall. symmetry. apply Forall2_eq_list.
    eapply Forall2_impl; [|exact Hall].
    intros col line Hs. unfold display_series in Hs. cbn in Hs. congruence.
  - intros Ha. eapply Forall2_impl; [|exact Hall].
    intros col line Hs. unfold display_series in Hs.
    destruct (Z.gtb_spec (avg s) 1); [|lia].
    destruct (np_convolve_same col (np_ones (avg s))) as [e|c] eqn:Ec;
      [discriminate|].
    exists c. split; [exact Ec|congruence].
Qed.

Lemma unpaused_tick_displays_witness :
  let s := onkeypress "a" (q_put (column_block [1; 2]) default_osc) in
  avg s = 3 /\
  Forall2 (is_rolled_average 3)
    (nd_columns (plotdata (snd (update_plot 1 (1 # 10) s))))
    (lines (snd (update_plot 1 (1 # 10) s))).
Proof.
  cbv zeta. split; [reflexivity|].
  refine (proj2 (proj2 (unpaused_tick_displays
            (onkeypress "a" (q_put (column_block [1; 2]) default_osc))
            1 (1 # 10) _ _ _)) _).
  - destruct default_osc_reachable as (c & w & d & i & chs & t & Hr).
    exists c, w, d, i, chs, t. apply reach_key, reach_put, Hr.
  - reflexivity.
  - change (fst (drain [column_block [1; 2]] (np_zeros capacity 1)) = None).
    rewrite drain_ok; [reflexivity|].
    constructor; [|constructor]. unfold fits. rewrite np_zeros_len.
    split; [|split]; [cbv; lia|cbv -[capacity Nat.le]; unfold capacity; lia
                     |reflexivity].
  - reflexivity.
Defined.




(** ** The window keys *)

Lemma window_iter_plus {T} (s : Oscilloscope T) (n : nat) :
  window (Nat.iter n (onkeypress "+") s)
  = Nat.iter n (fun w => py_max (py_min (w / (2 # 1)) max_window) min_window)
      (window s).
Proof.
  induction n as [|n IH]; [reflexivity|].
  now rewrite !Nat.iter_succ, window_after_plus, IH.
Qed.

Lemma window_iter_minus {T} (s : Oscilloscope T) (n : nat) :
  window (Nat.iter n (onkeypress "-") s)
  = Nat.iter n (fun w => py_max (py_min (w * (2 # 1)) max_window) min_window)
      (window s).
Proof.
  induction n as [|n IH]; [reflexivity|].
  now rewrite !Nat.iter_succ, window_after_minus, IH.
Qed.

(** C9: a + press replaces window by window / 2 and a - press by window * 2,
    each clamped to [16, 65536]; from an oscilloscope built with window 1024,
    twenty + presses leave window 16 and thirty further - presses leave
    65536. *)
Theorem plus_minus_keys_clamp {T} `{Scalar T} (s : Oscilloscope T)
  (channels : nat) (dsample : Z) (ival : Q) (chans : list Z) (now : Q) :
  (window (onkeypress "+" s) == clamp_window (window s / (2 # 1)))%Q /\
  (window (onkeypress "-" s) == clamp_window (window s * (2 # 1)))%Q /\
  window_in_range (window (onkeypress "+" s)) /\
  window_in_range (window (onkeypress "-" s)) /\
  let s0 : Oscilloscope T := init channels (1024 # 1) dsample ival chans now in
  let s20 := Nat.iter 20 (onkeypress "+") s0 in
  window s0 = (1024 # 1)%Q /\ window s20 = (16 # 1)%Q /\
  window (Nat.iter 30 (onkeypress "-") s20) = (65536 # 1)%Q.
Proof.
  rewrite window_after_plus, window_after_minus.
  split; [apply py_clamp_spec, window_bounds|].
  split; [apply py_clamp_spec, window_bounds|].
  split; [apply py_clamp_range, window_bounds|].
  split; [apply py_clamp_range, window_bounds|].
  cbv zeta. split; [reflexivity|].
  assert (H20 : window (Nat.iter 20 (onkeypress "+")
                  (init (T := T) channels (1024 # 1) dsample ival chans now))
                = (16 # 1)%Q).
  { rewrite window_iter_plus.
    change (window (init channels (1024 # 1) dsample ival chans now))
      with (1024 # 1)%Q.
    vm_compute. reflexivity. }
  split; [exact H20|].
  rewrite window_iter_minus, H20. vm_compute. reflexivity.
Qed.

(** ** The configured window *)

(** X16: a window inside [16, 65536] stays inside that range through a run:
    enqueued blocks and ticks do not touch it and the keys clamp it. *)
Lemma window_range_preserved {T} `{Scalar T} (s0 s : Oscilloscope T) :
  window_in_range (window s0) -> reachable_from s0 s -> window_in_range (window s).
Proof.
  intros H0 Hr. induction Hr as [|s b _ IH|s frame now _ IH|s key _ IH].
  - exact H0.
  - exact IH.
  - destruct (update_plot_view frame now s) as [-> _]. exact IH.
  - unfold onkeypress.
    set (s1 := if String.eqb key "p" then _ else _).
    assert (H1 : window_in_range (window s1))
      by (subst s1; destruct (String.eqb key "p"); exact IH).
    clearbody s1.
    set (s2 := if String.eqb key "alt+-" then _ else _).
    assert (H2 : window_in_range (window s2))
      by (subst s2; destruct (String.eqb key "alt+-"); exact H1).
    clearbody s2.
    set (s3 := if String.eqb key "alt++" then _ else _).
    assert (H3 : window_in_range (window s3))
      by (subst s3; destruct (String.eqb key "alt++"); exact H2).
    clearbody s3.
    set (s4 := if String.eqb key "-" then _ else _).
    assert (H4 : window_in_range (window s4))
      by (subst s4; destruct (String.eqb key "-");
          [apply py_clamp_range, window_bounds|exact H3]).
    clearbody s4.
    set (s5 := if String.eqb key "+" then _ else _).
    assert (H5 : window_in_range (window s5))
      by (subst s5; destruct (String.eqb key "+");
          [apply py_clamp_range, window_bounds|exact H4]).
    clearbody s5.
    destruct (String.eqb key "a"); [|exact H5].
    destruct (avg s5 =? 1); [exact H5|]. destruct (avg s5 =? 3); exact H5.
Qed.

(** X15: the vertical zoom is in [1, 8] in every reachable state. *)
Lemma yzoom_always_in_range {T} `{Scalar T} (s : Oscilloscope T) :
  reachable s -> yzoom_in_range (yzoom s).
Proof. intros Hr. apply (inv_yzoom s (reachable_invariant s Hr)). Qed.

(** C2, the code at a configured window of 5: the constructor stores the
    value and calls set_window() without it, so the clamp that a key press
    applies is skipped; the window is 5, below min_window, right after
    construction and still after a p press. *)
Theorem configured_window_not_clamped :
  let s : Oscilloscope Q := init 1 (5 # 1) 1 (30 # 1) [1] 0 in
  reachable s /\ window s = (5 # 1)%Q /\ ~ window_in_range (window s) /\
  reachable (onkeypress "p" s) /\ ~ window_in_range (window (onkeypress "p" s)) /\
  window_in_range (window (onkeypress "+" s)).
Proof.
  cbv zeta.
  assert (Hr : reachable (init (T := Q) 1 (5 # 1) 1 (30 # 1) [1] 0)).
  { exists 1%nat, (5 # 1)%Q, 1, (30 # 1)%Q, [1], 0%Q. constructor. }
  assert (Hout : ~ window_in_range (5 # 1)%Q).
  { intros [Hlo _]. unfold min_window, Qle in Hlo. cbn in Hlo. lia. }
  split; [exact Hr|]. split; [reflexivity|]. split; [exact Hout|].
  split; [|split].
  - destruct Hr as (c & w & d & i & chs & t & Hr).
    exists c, w, d, i, chs, t. apply reach_key, Hr.
  - exact Hout.
  - rewrite window_after_plus. apply py_clamp_range, window_bounds.
Qed.

(** ** The axis conversions *)





(** ** Worked examples *)

(** The spec's scenario on a buffer of 8 rows: the blocks [1,2], [3,4,5], [6]
    leave [0,0,1,2,3,4,5,6], whose last four are [3,4,5,6]. *)
Example drain_three_blocks :
  drain [column_block [1; 2]; column_block [3; 4; 5]; column_block [6]]
        (np_zeros 8 1)
  = (None, ([], column_block [0; 0; 1; 2; 3; 4; 5; 6])) /\
  lastn 4 (nd_rows (column_block [0; 0; 1; 2; 3; 4; 5; 6]))
  = nd_rows (column_block [3; 4; 5; 6]).
Proof. split; reflexivity. Qed.

(** A block of one column written into a buffer of two is broadcast. *)
Example push_broadcasts_columns :
  push (np_zeros 3 2) (column_block [7])
  = (None, mk_ndarray [[0; 0]; [0; 0]; [7 # 1; 7 # 1]]%Q 2).
Proof. reflexivity. Qed.

(** The moving average of span 3 over 3, 6, 9, 12, 15: the sums of
    neighbours 9, 18, 27, 36, 27 over 3, rolled forward by three places. *)
Example display_series_avg3 :
  display_series 3 [3 # 1; 6 # 1; 9 # 1; 12 # 1; 15 # 1]%Q
  = inr [27 # 3; 36 # 3; 27 # 3; 9 # 3; 18 # 3]%Q.
Proof. reflexivity. Qed.

(** numpy's documented example: [np.convolve([1,2,3], [0,1,0.5], 'same')] is
    [1, 2.5, 4]. *)
Example np_convolve_same_doc :
  match np_convolve_same [1 # 1; 2 # 1; 3 # 1]%Q [0 # 1; 1 # 1; 1 # 2]%Q with
  | inr c => Forall2 Qeq c [1 # 1; 5 # 2; 4 # 1]%Q
  | inl _ => False
  end.
Proof. cbn. repeat constructor. Qed.

Example np_roll_forward : np_roll [1; 2; 3; 4; 5] 2 = [4; 5; 1; 2; 3].
Proof. reflexivity. Qed.

Example samples_time_conversion_bad_timebase :
  samples_time_conversion (T := Q) (44100 # 1) "us" = inl ValueError_timebase.
Proof. reflexivity. Qed.

(** * Further properties of the buffer *)

Section BufferMore.
Context {T : Type}.
Implicit Types plotdata data : ndarray T.

Lemma lastn_app_long {A} (n : nat) (l m : list A) :
  (n <= length m)%nat -> lastn n (l ++ m) = lastn n m.
Proof.
  intros Hn. unfold lastn. rewrite length_app, skipn_app.
  rewrite skipn_all2 by lia. cbn [app]. f_equal. lia.
Qed.

Lemma np_roll_zero {A} (a : list A) : np_roll a 0 = a.
Proof.
  unfold np_roll. destruct (Z.of_nat (length a) =? 0); [reflexivity|].
  cbn [Z.opp]. rewrite Zmod_0_l. cbn [Z.to_nat skipn firstn].
  apply app_nil_r.
Qed.

Lemma nd_roll_zero plotdata : nd_roll plotdata 0 = plotdata.
Proof. unfold nd_roll. rewrite np_roll_zero. now destruct plotdata. Qed.

(** X1: a push of [r] rows, [1 <= r <= len(plotdata)], shifts the buffer left
    by [r]: row [i] of the new buffer is the old row [i + r], and the last
    [r] rows are the rows of the block, in order. *)
Theorem push_shifts_rows plotdata data (d : list T) :
  (1 <= nd_len data)%nat -> (nd_len data <= nd_len plotdata)%nat ->
  nd_ncols data = nd_ncols plotdata ->
  fst (push plotdata data) = None /\
  nd_len (snd (push plotdata data)) = nd_len plotdata /\
  (forall i, (i + nd_len data < nd_len plotdata)%nat ->
     nth i (nd_rows (snd (push plotdata data))) d
     = nth (i + nd_len data) (nd_rows plotdata) d) /\
  (forall j, (j < nd_len data)%nat ->
     nth (nd_len plotdata - nd_len data + j) (nd_rows (snd (push plotdata data))) d
     = nth j (nd_rows data) d).
Proof.
  intros H1 H2 Hc. rewrite push_ok by assumption. cbn [fst snd nd_rows].
  unfold nd_len in *. cbn [nd_rows].
  assert (Hl : lastn (length (nd_rows plotdata)) (nd_rows plotdata ++ nd_rows data)
               = skipn (length (nd_rows data)) (nd_rows plotdata ++ nd_rows data)).
  { unfold lastn. rewrite length_app. f_equal. lia. }
  rewrite Hl. split; [reflexivity|]. split; [|split].
  - rewrite length_skipn, length_app. lia.
  - intros i Hi. rewrite nth_skipn, app_nth1 by lia. f_equal. lia.
  - intros j Hj. rewrite nth_skipn, app_nth2 by lia. f_equal. lia.
Qed.

(** X2: a non-empty block whose column count is neither the buffer's nor 1
    cannot be broadcast: the push raises, naming both shapes, and leaves the
    old rows, rolled, with nothing of the block written. *)
Theorem push_column_mismatch_raises plotdata data :
  (1 <= nd_len data)%nat -> (nd_len data <= nd_len plotdata)%nat ->
  nd_ncols data <> nd_ncols plotdata -> nd_ncols data <> 1%nat ->
  push plotdata data =
  (Some (ValueError_broadcast (nd_len data, nd_ncols data)
           (nd_len data, nd_ncols plotdata)),
   nd_roll plotdata (- Z.of_nat (nd_len data))).
Proof.
  intros H1 H2 Hc Hc1. unfold push, nd_assign_tail. rewrite nd_roll_len.
  destruct (nd_len data =? 0)%nat eqn:E0; [apply Nat.eqb_eq in E0; lia|].
  replace (nd_len plotdata - (nd_len plotdata - nd_len data))%nat
    with (nd_len data) by lia.
  unfold axis_broadcasts. rewrite Nat.eqb_refl. cbn [nd_roll nd_ncols orb andb].
  destruct (Nat.eqb_spec (nd_ncols data) (nd_ncols plotdata)); [contradiction|].
  destruct (Nat.eqb_spec (nd_ncols data) 1); [contradiction|].
  reflexivity.
Qed.

(** A block whose columns broadcast onto the buffer's is written with each
    row broadcast. *)
Lemma push_ok_broadcast plotdata data :
  (1 <= nd_len data)%nat -> (nd_len data <= nd_len plotdata)%nat ->
  axis_broadcasts (nd_ncols data) (nd_ncols plotdata) = true ->
  push plotdata data =
  (None,
   mk_ndarray
     (lastn (nd_len plotdata)
        (nd_rows plotdata
         ++ map (broadcast_axis (nd_ncols data) (nd_ncols plotdata)) (nd_rows data)))
     (nd_ncols plotdata)).
Proof.
  intros H1 H2 Hc. unfold push, nd_assign_tail.
  rewrite nd_roll_len.
  destruct (nd_len data =? 0)%nat eqn:E0; [apply Nat.eqb_eq in E0; lia|].
  replace (nd_len plotdata - (nd_len plotdata - nd_len data))%nat
    with (nd_len data) by lia.
  unfold axis_broadcasts at 1. rewrite Nat.eqb_refl. cbn [nd_roll nd_ncols].
  rewrite Hc. cbn [orb andb nd_rows].
  unfold broadcast_to. rewrite broadcast_axis_same. do 2 f_equal.
  unfold nd_roll, nd_len in *. cbn [nd_rows]. rewrite np_roll_back by exact H2.
  rewrite firstn_app, length_skipn, Nat.sub_diag, firstn_O, app_nil_r.
  rewrite firstn_all2 by (rewrite length_skipn; lia).
  unfold lastn. rewrite length_app, length_map, skipn_app. f_equal.
  - f_equal. lia.
  - replace (length (nd_rows plotdata) + length (nd_rows data)
             - length (nd_rows plotdata) - length (nd_rows plotdata))%nat
      with 0%nat by lia.
    reflexivity.
Qed.

(** X3: a block of one column holding the samples [xs], pushed into a buffer
    of [c] columns, is broadcast: every new row is its sample repeated [c]
    times. *)
Theorem push_single_column_broadcasts plotdata (xs : list T) :
  (1 <= length xs)%nat -> (length xs <= nd_len plotdata)%nat ->
  push plotdata (mk_ndarray (map (fun x => [x]) xs) 1) =
  (None,
   mk_ndarray
     (lastn (nd_len plotdata)
        (nd_rows plotdata ++ map (fun x => repeat x (nd_ncols plotdata)) xs))
     (nd_ncols plotdata)).
Proof.
  intros H1 H2.
  assert (Hlen : nd_len (mk_ndarray (map (fun x : T => [x]) xs) 1) = length xs)
    by apply length_map.
  rewrite push_ok_broadcast.
  - cbn [nd_rows nd_ncols]. rewrite map_map. do 4 f_equal.
    apply map_ext. intros x. unfold broadcast_axis.
    destruct (Nat.eqb_spec 1 (nd_ncols plotdata)) as [<-|]; reflexivity.
  - rewrite Hlen. exact H1.
  - rewrite Hlen. exact H2.
  - unfold axis_broadcasts. cbn [nd_ncols]. apply orb_true_r.
Qed.

End BufferMore.

Lemma push_shifts_rows_witness :
  nth 0 (nd_rows (snd (push (column_block [1; 2; 3; 4]) (column_block [5; 6])))) []
  = nth 2 (nd_rows (column_block [1; 2; 3; 4])) [].
Proof.
  refine (proj1 (proj2 (proj2
            (push_shifts_rows (column_block [1; 2; 3; 4]) (column_block [5; 6]) []
               _ _ _))) 0%nat _); cbv; lia || reflexivity.
Defined.

Lemma push_column_mismatch_raises_witness :
  push (np_zeros 4 3) (mk_ndarray [[1 # 1; 2 # 1]]%Q 2) =
  (Some (ValueError_broadcast (1, 2)%nat (1, 3)%nat),
   nd_roll (np_zeros 4 3) (- (1))).
Proof.
  apply (push_column_mismatch_raises (np_zeros 4 3) (mk_ndarray [[1 # 1; 2 # 1]]%Q 2));
    cbv; lia || discriminate.
Defined.

Lemma push_single_column_broadcasts_witness :
  push (np_zeros 3 2) (mk_ndarray (map (fun x => [x]) [7 # 1]%Q) 1) =
  (None, mk_ndarray [[0; 0]; [0; 0]; [7 # 1; 7 # 1]]%Q 2).
Proof.
  rewrite (push_single_column_broadcasts (np_zeros 3 2) [7 # 1]%Q);
    [reflexivity | cbv; lia | cbv; lia].
Defined.

(** * Further properties of the tick *)

Section TickMore.
Context {T : Type} `{Scalar T}.
Implicit Types s : Oscilloscope T.

(** The drain loop raises nothing but the broadcast error. *)
Lemma drain_error_kind (blocks : list (ndarray T)) : forall plotdata e rest pd,
  drain blocks plotdata = (Some e, (rest, pd)) ->
  exists src dst, e = ValueError_broadcast src dst.
Proof.
  induction blocks as [|b bs IH]; intros plotdata e rest pd Hd; cbn [drain] in Hd.
  - discriminate.
  - destruct (push plotdata b) as [[e1|] pd1] eqn:Hp.
    + injection Hd as <- _ _. unfold push, nd_assign_tail in Hp.
      destruct (_ && _); [discriminate|].
      injection Hp as <- _. eauto.
    + eapply IH, Hd.
Qed.

Lemma update_lines_count (plotdata : ndarray T) (a : Z) :
  forall ls ch, length (snd (update_lines plotdata a ch ls)) = length ls.
Proof.
  induction ls as [|l rest IH]; intros ch; cbn [update_lines]; [reflexivity|].
  destruct (nd_column plotdata ch); [|reflexivity].
  destruct (display_series a l0); [reflexivity|].
  specialize (IH (S ch)).
  destruct (update_lines plotdata a (S ch) rest) as [e lns].
  cbn [snd length] in *. now rewrite IH.
Qed.

Lemma Forall2_functional {A B} (R : A -> B -> Prop) (l : list A) (m m' : list B) :
  (forall x y y', R x y -> R x y' -> y = y') ->
  Forall2 R l m -> Forall2 R l m' -> m = m'.
Proof.
  intros HR Hm. revert m'. induction Hm as [|x y l m Hxy _ IH]; intros m' Hm';
    inversion Hm'; subst; [reflexivity|].
  f_equal; [eapply HR; eassumption|now apply IH].
Qed.

(** X4: when every queued block fits, a tick empties the queue and leaves in
    the buffer the newest [len(plotdata)] rows of the old rows followed by
    the blocks in queue order, whatever the old content and however much was
    queued; once a full buffer's worth has arrived nothing of the old content
    is left. *)
Theorem tick_keeps_newest_rows s (frame : Z) (now : Q) :
  Forall (fits (plotdata s)) (q s) ->
  let s' := snd (update_plot frame now s) in
  q s' = [] /\
  plotdata s'
  = mk_ndarray
      (lastn (nd_len (plotdata s)) (nd_rows (plotdata s) ++ block_rows (q s)))
      (nd_ncols (plotdata s)) /\
  ((nd_len (plotdata s) <= length (block_rows (q s)))%nat ->
   nd_rows (plotdata s') = lastn (nd_len (plotdata s)) (block_rows (q s))).
Proof.
  intros Hfit s'. pose proof (update_plot_buffer frame now s) as Hb.
  rewrite (drain_ok _ _ Hfit) in Hb. cbn [snd] in Hb.
  injection Hb as Hq Hpd. fold s' in Hq, Hpd.
  split; [exact Hq|]. split; [exact Hpd|].
  intros Hlong. rewrite Hpd. cbn [nd_rows]. now apply lastn_app_long.
Qed.

(** X5: in a reachable state a tick either returns or raises the broadcast
    error of the buffer assignment; the loop over the lines never raises
    (no IndexError, no empty convolution). *)
Theorem tick_raises_only_broadcast s (frame : Z) (now : Q) :
  reachable s ->
  fst (update_plot frame now s) = Returned \/
  exists src dst, fst (update_plot frame now s) = Raised (ValueError_broadcast src dst).
Proof.
  intros Hr. destruct (drain (q s) (plotdata s)) as [[e|] [rest pd]] eqn:Hd.
  - right. destruct (drain_error_kind _ _ _ _ _ Hd) as (src & dst & ->).
    exists src, dst. now rewrite (update_plot_drain_raises _ _ _ _ _ _ Hd).
  - left. apply update_plot_returns; [now apply reachable_invariant|].
    now rewrite Hd.
Qed.

(** X6: an empty block at the head of the queue is taken and dropped with the
    broadcast error: the tick changes nothing but the queue, which keeps the
    blocks behind it for the next tick. *)
Theorem empty_block_is_dropped s (frame : Z) (now : Q) (e : ndarray T)
  (rest : list (ndarray T)) :
  q s = e :: rest -> nd_len e = 0%nat -> (1 <= nd_len (plotdata s))%nat ->
  update_plot frame now s =
  (Raised (ValueError_broadcast (0%nat, nd_ncols e)
             (nd_len (plotdata s), nd_ncols (plotdata s))),
   set_q rest s).
Proof.
  intros Hq He Hn.
  rewrite (update_plot_drain_raises frame now s
             (ValueError_broadcast (0%nat, nd_ncols e)
                (nd_len (plotdata s), nd_ncols (plotdata s)))
             rest (plotdata s)).
  - now destruct s.
  - rewrite Hq. cbn [drain]. rewrite push_empty by assumption.
    rewrite nd_roll_zero. unfold nd_shape. now rewrite He.
Qed.

(** X7: an unpaused tick in a reachable state with nothing queued returns and
    leaves the buffer as it was, and a second such tick sets the lines to the
    same series again. *)
Theorem tick_without_data_redraws_same s (f1 f2 : Z) (t1 t2 : Q) :
  reachable s -> paused s = false -> q s = [] ->
  let s1 := snd (update_plot f1 t1 s) in
  fst (update_plot f1 t1 s) = Returned /\ plotdata s1 = plotdata s /\ q s1 = [] /\
  fst (update_plot f2 t2 s1) = Returned /\
  lines (snd (update_plot f2 t2 s1)) = lines s1.
Proof.
  intros Hr Hp Hq s1.
  assert (Hd : drain (q s) (plotdata s) = (None, ([], plotdata s)))
    by now rewrite Hq.
  pose proof (update_plot_buffer f1 t1 s) as Hb. rewrite Hd in Hb.
  injection Hb as Hq1 Hpd1. fold s1 in Hq1, Hpd1.
  destruct (update_plot_view f1 t1 s) as (_ & _ & _ & _ & Ha1 & Hp1).
  fold s1 in Ha1, Hp1.
  destruct (update_plot_returns f1 t1 s (reachable_invariant s Hr))
    as [Hret1 Hall1]; [now rewrite Hd|].
  specialize (Hall1 Hp). fold s1 in Hall1.
  assert (Hr1 : reachable s1) by now apply reachable_tick.
  assert (Hd1 : drain (q s1) (plotdata s1) = (None, ([], plotdata s1)))
    by now rewrite Hq1.
  pose proof (update_plot_buffer f2 t2 s1) as Hb2. rewrite Hd1 in Hb2.
  injection Hb2 as _ Hpd2.
  destruct (update_plot_returns f2 t2 s1 (reachable_invariant s1 Hr1))
    as [Hret2 Hall2]; [now rewrite Hd1|].
  rewrite Hp1 in Hall2. specialize (Hall2 Hp).
  rewrite Hpd2, Ha1 in Hall2.
  repeat split; try assumption.
  eapply Forall2_functional; [|exact Hall2|exact Hall1].
  intros col y y' Hy Hy'. congruence.
Qed.

End TickMore.

Lemma tick_keeps_newest_rows_witness :
  q (snd (update_plot 0 0 (q_put (column_block [1; 2]) default_osc))) = [].
Proof.
  refine (proj1 (tick_keeps_newest_rows
                   (q_put (column_block [1; 2]) default_osc) 0 0 _)).
  change (Forall (fits (np_zeros (T := Q) capacity 1)) [column_block [1; 2]]).
  constructor; [|constructor]. unfold fits. rewrite np_zeros_len.
  split; [|split]; [cbv; lia|cbv -[capacity Nat.le]; unfold capacity; lia
                   |reflexivity].
Defined.

Lemma tick_raises_only_broadcast_witness :
  fst (update_plot 0 0 default_osc) = Returned \/
  exists src dst,
    fst (update_plot 0 0 default_osc) = Raised (ValueError_broadcast src dst).
Proof. exact (tick_raises_only_broadcast default_osc 0 0 default_osc_reachable). Defined.

Lemma empty_block_is_dropped_witness :
  update_plot 0 0 (q_put (column_block [1]) (q_put (column_block []) default_osc))
  = (Raised (ValueError_broadcast (0, 1)%nat (capacity, 1%nat)),
     set_q [column_block [1]]
       (q_put (column_block [1]) (q_put (column_block []) default_osc))).
Proof.
  rewrite (empty_block_is_dropped
             (q_put (column_block [1]) (q_put (column_block []) default_osc))
             0 0 (column_block []) [column_block [1]]).
  - change (plotdata (q_put (column_block [1]) (q_put (column_block []) default_osc)))
      with (np_zeros (T := Q) capacity 1).
    rewrite np_zeros_len. reflexivity.
  - reflexivity.
  - reflexivity.
  - change (plotdata (q_put (column_block [1]) (q_put (column_block []) default_osc)))
      with (np_zeros (T := Q) capacity 1).
    rewrite np_zeros_len. exact capacity_pos.
Defined.

Lemma tick_without_data_redraws_same_witness :
  lines (snd (update_plot 2 1 (snd (update_plot 1 0 default_osc))))
  = lines (snd (update_plot 1 0 default_osc)).
Proof.
  exact (proj2 (proj2 (proj2 (proj2
           (tick_without_data_redraws_same default_osc 1 2 0 1
              default_osc_reachable eq_refl eq_refl))))).
Defined.

(** * Further properties of the keys *)

Section KeysMore.
Context {T : Type}.
Implicit Types s : Oscilloscope T.

Ltac key_cases :=
  repeat match goal with
         | |- context [if String.eqb ?k ?c then _ else _] =>
             destruct (String.eqb k c)
         | |- context [if Z.eqb ?a ?b then _ else _] => destruct (Z.eqb a b)
         end.

(** A key press leaves the buffer and the lines alone. *)
Lemma onkeypress_buffer s (key : string) :
  plotdata (onkeypress key s) = plotdata s /\
  lines (onkeypress key s) = lines s.
Proof.
  destruct s as [sq sp sa sd si sc spd sl sst sx sy sw sz st].
  unfold onkeypress. cbv zeta.
  destruct (String.eqb key "p"), (String.eqb key "alt+-"),
    (String.eqb key "alt++"), (String.eqb key "-"), (String.eqb key "+"),
    (String.eqb key "a");
    cbn [set_paused set_yzoom set_window set_avg set_xlim set_ylim
         set_window_field set_yzoom_field q paused avg downsample interval
         channel_mapping plotdata lines status_text xlim ylim window yzoom
         starttime];
    key_cases; split; reflexivity.
Qed.

(** X8: no key press touches the data: the queue, the buffer, the series of
    the lines, the status text and the capture settings are as before. *)
Theorem keys_leave_data s (key : string) :
  let s' := onkeypress key s in
  q s' = q s /\ plotdata s' = plotdata s /\ lines s' = lines s /\
  status_text s' = status_text s /\ starttime s' = starttime s /\
  downsample s' = downsample s /\ channel_mapping s' = channel_mapping s.
Proof.
  destruct s as [sq sp sa sd si sc spd sl sst sx sy sw sz st].
  unfold onkeypress. cbv zeta.
  destruct (String.eqb key "p"), (String.eqb key "alt+-"),
    (String.eqb key "alt++"), (String.eqb key "-"), (String.eqb key "+"),
    (String.eqb key "a");
    cbn [set_paused set_yzoom set_window set_avg set_xlim set_ylim
         set_window_field set_yzoom_field q paused avg downsample interval
         channel_mapping plotdata lines status_text xlim ylim window yzoom
         starttime];
    key_cases; repeat split.
Qed.

(** X9: a key other than p, alt+-, alt++, -, + and a changes nothing. *)
Theorem unknown_key_is_noop s (key : string) :
  key <> "p"%string -> key <> "alt+-"%string -> key <> "alt++"%string ->
  key <> "-"%string -> key <> "+"%string -> key <> "a"%string ->
  onkeypress key s = s.
Proof.
  intros Hp Hzo Hzi Hm Hpl Ha. unfold onkeypress.
  apply String.eqb_neq in Hp, Hzo, Hzi, Hm, Hpl, Ha.
  now rewrite Hp, Hzo, Hzi, Hm, Hpl, Ha.
Qed.

(** X10: the p key toggles [paused] and nothing else, so two presses give the
    state back. *)
Theorem p_key_toggles_pause s :
  onkeypress "p" s = set_paused (negb (paused s)) s /\
  onkeypress "p" (onkeypress "p" s) = s.
Proof.
  split; [reflexivity|].
  destruct s as [sq sp sa sd si sc spd sl sst sx sy sw sz st].
  cbn. now rewrite negb_involutive.
Qed.

Lemma py_clamp_inside (x lo hi : Q) :
  (lo <= x)%Q -> (x <= hi)%Q -> py_max (py_min x hi) lo = x.
Proof.
  intros Hlo Hhi. unfold py_min, py_max.
  destruct (Qlt_le_dec hi x) as [Hc|_];
    [exfalso; apply (Qlt_irrefl hi); eapply Qlt_le_trans; eassumption|].
  destruct (Qlt_le_dec x lo) as [Hc|_]; [|reflexivity].
  exfalso. apply (Qlt_irrefl x). eapply Qlt_le_trans; eassumption.
Qed.

Lemma py_clamp_below (x lo hi : Q) :
  (x < lo)%Q -> (lo <= hi)%Q -> py_max (py_min x hi) lo = lo.
Proof.
  intros Hlo Hlh. unfold py_min, py_max.
  destruct (Qlt_le_dec hi x) as [Hc|_].
  - exfalso. apply (Qlt_irrefl x).
    eapply Qlt_trans; [exact Hlo|]. eapply Qle_lt_trans; eassumption.
  - destruct (Qlt_le_dec x lo) as [_|Hc]; [reflexivity|].
    exfalso. apply (Qlt_irrefl x). eapply Qlt_le_trans; eassumption.
Qed.

(** X11: zooming the time axis in and out again gives the window back when
    the halved window is still at least 16, that is for windows from 32 up;
    below 32 the halved window is clamped to 16 and + then - leaves 32. *)
Theorem plus_then_minus_window s :
  window_in_range (window s) ->
  ((32 # 1 <= window s)%Q ->
   (window (onkeypress "-" (onkeypress "+" s)) == window s)%Q) /\
  ((window s < 32 # 1)%Q ->
   (window (onkeypress "-" (onkeypress "+" s)) == 32 # 1)%Q).
Proof.
  intros [Hlo Hhi]. unfold min_window, max_window in *.
  rewrite window_after_minus, window_after_plus. unfold min_window, max_window.
  split; intros Hw.
  - rewrite (py_clamp_inside (window s / (2 # 1))).
    + rewrite py_clamp_inside.
      * field.
      * apply Qle_trans with (window s); [exact Hlo|].
        apply Qle_lteq. right. field.
      * apply Qle_trans with (window s); [|exact Hhi].
        apply Qle_lteq. right. field.
    + apply Qle_shift_div_l; [reflexivity|exact Hw].
    + apply Qle_shift_div_r; [reflexivity|].
      apply Qle_trans with (65536 # 1)%Q; [exact Hhi|discriminate].
  - rewrite (py_clamp_below (window s / (2 # 1))).
    + rewrite py_clamp_inside; [reflexivity|discriminate|discriminate].
    + apply Qlt_shift_div_r; [reflexivity|exact Hw].
    + discriminate.
Qed.

(** X12: alt++ doubles and alt+- halves the vertical zoom, clamped to
    [1, 8], and sets the y limits to plus and minus 1/yzoom at once; neither
    touches the window or the x limits. *)
Theorem alt_keys_zoom s :
  (yzoom (onkeypress "alt++" s)
   == Qmax min_yzoom (Qmin (yzoom s * (2 # 1)) max_yzoom))%Q /\
  (yzoom (onkeypress "alt+-" s)
   == Qmax min_yzoom (Qmin (yzoom s / (2 # 1)) max_yzoom))%Q /\
  (forall key, key = "alt++"%string \/ key = "alt+-"%string ->
     let s' := onkeypress key s in
     yzoom_in_range (yzoom s') /\
     ylim s' = (- (1 / yzoom s'), 1 / yzoom s')%Q /\
     window s' = window s /\ xlim s' = xlim s).
Proof.
  rewrite yzoom_after_alt_plus, yzoom_after_alt_minus.
  split; [apply py_clamp_spec, yzoom_bounds|].
  split; [apply py_clamp_spec, yzoom_bounds|].
  intros key [-> | ->]; cbv zeta.
  - rewrite yzoom_after_alt_plus.
    split; [apply py_clamp_range, yzoom_bounds|]. repeat split.
  - rewrite yzoom_after_alt_minus.
    split; [apply py_clamp_range, yzoom_bounds|]. repeat split.
Qed.

End KeysMore.

Lemma unknown_key_is_noop_witness : onkeypress "x" default_osc = default_osc.
Proof. apply (unknown_key_is_noop default_osc "x"); discriminate. Defined.

Lemma plus_then_minus_window_witness :
  (window (onkeypress "-" (onkeypress "+" default_osc)) == 1024 # 1)%Q.
Proof.
  refine (proj1 (plus_then_minus_window default_osc _) _).
  - split; discriminate.
  - discriminate.
Defined.

(** * Further invariants of a run *)

Section RunMore.
Context {T : Type} `{Scalar T}.
Implicit Types s : Oscilloscope T.

(** X13: through a whole run the buffer keeps the shape it was built with, 65536
    rows by the stream's channel count, and there stays one line per
    column. *)
Theorem buffer_shape_is_fixed (channels : nat) (w : Q) (dsample : Z) (ival : Q)
  (chans : list Z) (now : Q) s :
  reachable_from (init channels w dsample ival chans now) s ->
  nd_shape (plotdata s) = (capacity, channels) /\ length (lines s) = channels.
Proof.
  intros Hr. induction Hr as [|s b _ IH|s frame t _ IH|s key _ IH].
  - split.
    + unfold nd_shape.
      change (plotdata (init channels w dsample ival chans now))
        with (np_zeros (T := T) capacity channels).
      now rewrite np_zeros_len.
    + cbn [init lines set_window set_yzoom set_xlim set_ylim set_yzoom_field].
      now rewrite length_map, length_seq.
  - exact IH.
  - destruct IH as [Hs Hl]. unfold nd_shape in *.
    pose proof (update_plot_buffer frame t s) as Hb.
    destruct (drain (q s) (plotdata s)) as [e [q' pd]] eqn:Hd.
    destruct (drain_shape _ _ _ _ _ Hd) as [Hlen Hc].
    cbn [snd] in Hb. injection Hb as _ Hpd. rewrite Hpd.
    split; [congruence|].
    unfold update_plot. rewrite Hd.
    destruct e as [e|]; [exact Hl|].
    cbn [paused set_plotdata set_q]. destruct (paused s); [exact Hl|].
    cbn [negb lines plotdata avg set_plotdata set_q].
    pose proof (update_lines_count pd (avg s) (lines s) 0) as Hcount.
    destruct (update_lines pd (avg s) 0 (lines s)) as [[e2|] lns];
      cbn [snd set_lines set_status_text lines] in *; congruence.
  - destruct (onkeypress_buffer s key) as [-> ->]. exact IH.
Qed.

(** X14: in every reachable state the averaging span is 1, 3 or 5. *)
Theorem avg_always_in_cycle s : reachable s -> In (avg s) [1; 3; 5].
Proof. intros Hr. apply (inv_avg s (reachable_invariant s Hr)). Qed.

End RunMore.

Lemma buffer_shape_is_fixed_witness :
  nd_shape (plotdata (onkeypress "+" (q_put (column_block [1]) default_osc)))
  = (capacity, 1%nat).
Proof.
  refine (proj1 (buffer_shape_is_fixed 1 (1024 # 1) 1 (30 # 1) [1] 0 _ _)).
  apply reach_key, reach_put, reach_start.
Defined.

Lemma avg_always_in_cycle_witness : In (avg (onkeypress "a" default_osc)) [1; 3; 5].
Proof.
  apply avg_always_in_cycle.
  destruct default_osc_reachable as (c & w & d & i & chs & t & Hr).
  exists c, w, d, i, chs, t. apply reach_key, Hr.
Defined.

Lemma yzoom_always_in_range_witness :
  yzoom_in_range (yzoom (onkeypress "alt++" default_osc)).
Proof.
  apply yzoom_always_in_range.
  destruct default_osc_reachable as (c & w & d & i & chs & t & Hr).
  exists c, w, d, i, chs, t. apply reach_key, Hr.
Defined.

Lemma window_range_preserved_witness :
  window_in_range (window (onkeypress "-" default_osc)).
Proof.
  apply (window_range_preserved default_osc).
  - split; discriminate.
  - apply reach_key, reach_start.
Defined.

(** * The capture side *)

Section Decimate.
Context {A : Type}.

Lemma every_nth_nth (d : nat) (dflt : A) : (1 <= d)%nat ->
  forall (l : list A) (k i : nat),
    nth i (every_nth k d l) dflt = nth (k + i * d) l dflt.
Proof.
  intros Hd. induction l as [|x r IH]; intros k i; cbn [every_nth].
  - destruct (k + i * d)%nat; destruct i; reflexivity.
  - destruct k as [|k].
    + destruct i as [|i]; [reflexivity|].
      cbn [nth]. rewrite IH.
      replace (0 + S i * d)%nat with (S (d - 1 + i * d)) by lia.
      reflexivity.
    + rewrite IH. reflexivity.
Qed.

Lemma every_nth_length (d : nat) : (1 <= d)%nat ->
  forall (l : list A) (k : nat),
    length (every_nth k d l) = ((length l - k + (d - 1)) / d)%nat.
Proof.
  intros Hd. induction l as [|x r IH]; intros k; cbn [every_nth length].
  - cbn [Nat.sub Nat.add]. symmetry. apply Nat.div_small. lia.
  - destruct k as [|k].
    + cbn [length]. rewrite IH.
      destruct (Nat.le_gt_cases (d - 1) (length r)) as [Hge|Hlt].
      * replace (length r - (d - 1) + (d - 1))%nat with (length r) by lia.
        replace (S (length r) - 0 + (d - 1))%nat with (length r + 1 * d)%nat by lia.
        rewrite Nat.div_add by lia. lia.
      * replace (length r - (d - 1) + (d - 1))%nat with (d - 1)%nat by lia.
        replace (S (length r) - 0 + (d - 1))%nat with (length r + 1 * d)%nat by lia.
        rewrite Nat.div_add by lia.
        rewrite !Nat.div_small by lia. reflexivity.
    + rewrite IH. reflexivity.
Qed.

Lemma every_nth_one (l : list A) : every_nth 0 1 l = l.
Proof. induction l as [|x r IH]; cbn [every_nth Nat.sub]; congruence. Qed.

Lemma py_slice_step_length (step : Z) (l rows : list A) :
  py_slice_step step l = Some rows ->
  length rows = ((length l + (Z.abs_nat step - 1)) / Z.abs_nat step)%nat.
Proof.
  unfold py_slice_step. destruct (Z.eqb_spec step 0); [discriminate|].
  destruct (Z.ltb_spec 0 step); intros [= <-];
    rewrite every_nth_length by lia; rewrite ?length_rev, Nat.sub_0_r.
  - replace (Z.abs_nat step) with (Z.to_nat step) by lia. reflexivity.
  - replace (Z.abs_nat step) with (Z.to_nat (- step)) by lia. reflexivity.
Qed.

End Decimate.

Lemma py_index_some (size : nat) (i : Z) :
  (exists k, py_index size i = Some k) <->
  - Z.of_nat size <= i < Z.of_nat size.
Proof.
  unfold py_index.
  destruct (Z.leb_spec 0 i), (Z.ltb_spec i (Z.of_nat size)); cbn [andb].
  - split; [lia|eauto].
  - destruct (Z.leb_spec (- Z.of_nat size) i), (Z.ltb_spec i 0); cbn [andb];
      (split; [intros [k Hk]; (discriminate || lia)|lia]).
  - destruct (Z.leb_spec (- Z.of_nat size) i), (Z.ltb_spec i 0); cbn [andb];
      (split; [intros [k Hk]; (discriminate || lia)|intros; eauto; lia]).
  - lia.
Qed.

Lemma py_indices_ok (size : nat) (idx : list Z) :
  (exists ks, py_indices size idx = inr ks) <->
  Forall (fun i => - Z.of_nat size <= i < Z.of_nat size) idx.
Proof.
  induction idx as [|i rest IH]; cbn [py_indices].
  - split; [constructor|eauto].
  - split.
    + intros [ks Hks].
      destruct (py_index size i) as [k|] eqn:Hi; [|discriminate].
      destruct (py_indices size rest) as [e|ks'] eqn:Hr; [discriminate|].
      constructor; [apply py_index_some; eauto|apply IH; eauto].
    + intros Hall. inversion Hall as [|? ? Hi Hrest]; subst.
      apply py_index_some in Hi. destruct Hi as [k ->].
      apply IH in Hrest. destruct Hrest as [ks ->]. eauto.
Qed.

Lemma py_indices_nonneg (size : nat) (idx : list Z) :
  Forall (fun i => 0 <= i < Z.of_nat size) idx ->
  py_indices size idx = inr (map Z.to_nat idx).
Proof.
  induction 1 as [|i rest Hi _ IH]; cbn [py_indices map]; [reflexivity|].
  unfold py_index.
  destruct (Z.leb_spec 0 i); [|lia].
  destruct (Z.ltb_spec i (Z.of_nat size)); [|lia].
  cbn [andb]. now rewrite IH.
Qed.

Section PutData.
Context {T : Type} `{Scalar T}.
Implicit Types (s : Oscilloscope T) (data : ndarray T).

Lemma map_nth_seq (r : list T) (d : T) :
  map (fun k => nth k r d) (seq 0 (length r)) = r.
Proof.
  apply (nth_ext _ _ d d).
  - now rewrite length_map, length_seq.
  - intros i Hi. rewrite length_map, length_seq in Hi.
    rewrite (nth_indep _ d (nth 0 r d)) by now rewrite length_map, length_seq.
    rewrite (map_nth (fun k => nth k r d) (seq 0 (length r)) 0%nat i).
    now rewrite seq_nth.
Qed.

(** What [put_data] does in terms of its two indexing steps. *)
Lemma put_data_cases data s :
  match py_slice_step (downsample s) (nd_rows data),
        py_indices (nd_ncols data) (channel_mapping s) with
  | Some rows, inr ks =>
      put_data data s =
      (None,
       q_put (mk_ndarray (map (fun r => map (fun k => nth k r (s_of_Z 0)) ks) rows)
                         (length (channel_mapping s))) s)
  | _, _ => fst (put_data data s) <> None /\ snd (put_data data s) = s
  end.
Proof.
  unfold put_data, nd_decimate_select.
  destruct (py_slice_step (downsample s) (nd_rows data)) as [rows|];
    [|split; [discriminate|reflexivity]].
  cbn [nd_ncols].
  destruct (py_indices (nd_ncols data) (channel_mapping s)) as [e|ks];
    [split; [discriminate|reflexivity]|reflexivity].
Qed.

Lemma py_slice_step_some {A} (step : Z) (l : list A) :
  (exists rows, py_slice_step step l = Some rows) <-> step <> 0.
Proof.
  unfold py_slice_step. destruct (Z.eqb_spec step 0) as [->|Hne].
  - split; [intros [rows Hr]; discriminate|congruence].
  - split; [auto|]. intros _. destruct (0 <? step); eauto.
Qed.

(** X17: [put_data] enqueues exactly when the decimation step is not zero and
    every channel index lies in [-C, C) for the C columns of the input;
    otherwise it raises and leaves the oscilloscope, the queue included, as it
    was. *)
Theorem put_data_raises_iff data s :
  (fst (put_data data s) = None <->
   downsample s <> 0 /\
   Forall (fun i => - Z.of_nat (nd_ncols data) <= i < Z.of_nat (nd_ncols data))
          (channel_mapping s)) /\
  (fst (put_data data s) <> None -> snd (put_data data s) = s).
Proof.
  pose proof (put_data_cases data s) as Hc.
  pose proof (py_slice_step_some (downsample s) (nd_rows data)) as Hs.
  pose proof (py_indices_ok (nd_ncols data) (channel_mapping s)) as Hi.
  destruct (py_slice_step (downsample s) (nd_rows data)) as [rows|].
  - destruct (py_indices (nd_ncols data) (channel_mapping s)) as [e|ks].
    + destruct Hc as [Hne Hsame]. split; [|auto]. split; [contradiction|].
      intros [_ Hall]. apply Hi in Hall. destruct Hall as [ks Hks]. discriminate.
    + rewrite Hc. cbn [fst snd]. split; [|congruence].
      split; [|reflexivity]. intros _. split; [apply Hs; eauto|apply Hi; eauto].
  - destruct Hc as [Hne Hsame]. split; [|auto]. split; [contradiction|].
    intros [Hd _]. apply Hs in Hd. destruct Hd as [rows Hr]. discriminate.
Qed.

(** X18: when [put_data] enqueues, the new block goes to the tail of the
    queue and nothing else changes; it has one column per entry of
    channel_mapping and ceil(n / |downsample|) rows for an input of n rows, so
    a non-empty input never gives an empty block. *)
Theorem put_data_enqueues data s s' :
  put_data data s = (None, s') ->
  exists block,
    s' = q_put block s /\ q s' = q s ++ [block] /\
    nd_ncols block = length (channel_mapping s) /\
    nd_len block
    = ((nd_len data + (Z.abs_nat (downsample s) - 1)) / Z.abs_nat (downsample s))%nat /\
    ((1 <= nd_len data)%nat -> (1 <= nd_len block <= nd_len data)%nat).
Proof.
  intros Hp. pose proof (put_data_cases data s) as Hc.
  pose proof (py_slice_step_some (downsample s) (nd_rows data)) as Hs.
  destruct (py_slice_step (downsample s) (nd_rows data)) as [rows|] eqn:Hr;
    [|rewrite Hp in Hc; destruct Hc as [Hc _]; now elim Hc].
  destruct (py_indices (nd_ncols data) (channel_mapping s)) as [e|ks];
    [rewrite Hp in Hc; destruct Hc as [Hc _]; now elim Hc|].
  rewrite Hp in Hc. injection Hc as ->.
  eexists. split; [reflexivity|]. split; [reflexivity|]. split; [reflexivity|].
  apply py_slice_step_length in Hr.
  assert (Hd : downsample s <> 0) by (apply Hs; eauto).
  unfold nd_len. cbn [nd_rows]. rewrite length_map, Hr.
  split; [reflexivity|]. intros Hn.
  assert (Hpos : (1 <= Z.abs_nat (downsample s))%nat) by lia.
  split.
  - apply Nat.div_le_lower_bound; lia.
  - apply Nat.Div0.div_le_upper_bound. nia.
Qed.

(** X19: with a positive downsample d and channel indices inside [0, C), the
    sample in row k and column j of the enqueued block is the sample of the
    input in row k * d and in the column that channel_mapping[j] names. *)
Theorem put_data_samples data s s' (k j : nat) :
  0 < downsample s ->
  Forall (fun i => 0 <= i < Z.of_nat (nd_ncols data)) (channel_mapping s) ->
  put_data data s = (None, s') ->
  exists block,
    q s' = q s ++ [block] /\
    ((k < nd_len block)%nat -> (j < length (channel_mapping s))%nat ->
     nth j (nth k (nd_rows block) []) (s_of_Z 0)
     = nth (Z.to_nat (nth j (channel_mapping s) 0))
           (nth (k * Z.to_nat (downsample s)) (nd_rows data) []) (s_of_Z 0)).
Proof.
  intros Hd Hall Hp. pose proof (put_data_cases data s) as Hc.
  rewrite (py_indices_nonneg _ _ Hall) in Hc.
  unfold py_slice_step in Hc.
  destruct (Z.eqb_spec (downsample s) 0); [lia|].
  destruct (Z.ltb_spec 0 (downsample s)); [|lia].
  rewrite Hp in Hc. injection Hc as ->.
  eexists. split; [reflexivity|].
  unfold nd_len. cbn [nd_rows]. rewrite length_map. intros Hk Hj.
  set (rows := every_nth 0 (Z.to_nat (downsample s)) (nd_rows data)) in *.
  set (g := fun r : list T =>
              map (fun k0 : nat => nth k0 r (s_of_Z 0))
                  (map Z.to_nat (channel_mapping s))).
  rewrite (nth_indep (map g rows) [] (g [])) by now rewrite length_map.
  rewrite (map_nth g rows [] k). unfold g.
  rewrite (nth_indep _ (s_of_Z 0) (nth 0%nat (nth k rows []) (s_of_Z 0)))
    by now rewrite !length_map.
  rewrite (map_nth (fun k0 => nth k0 (nth k rows []) (s_of_Z 0))
             (map Z.to_nat (channel_mapping s)) 0%nat j).
  change 0%nat with (Z.to_nat 0) at 1.
  rewrite (map_nth Z.to_nat (channel_mapping s) 0 j).
  unfold rows. rewrite every_nth_nth by lia. reflexivity.
Qed.

(** X20: with downsample 1 and the channel indices 0 .. C-1 in order, the
    callback enqueues the captured block unchanged. *)
Theorem put_data_identity data s :
  downsample s = 1 ->
  channel_mapping s = map Z.of_nat (seq 0 (nd_ncols data)) ->
  Forall (fun r => length r = nd_ncols data) (nd_rows data) ->
  put_data data s = (None, q_put data s).
Proof.
  intros Hd Hm Hwf. pose proof (put_data_cases data s) as Hc.
  assert (Hks : map Z.to_nat (map Z.of_nat (seq 0 (nd_ncols data)))
                = seq 0 (nd_ncols data)).
  { rewrite map_map. rewrite (map_ext _ (fun k => k)) by (intros; apply Nat2Z.id).
    apply map_id. }
  rewrite Hd, Hm in Hc. rewrite py_indices_nonneg, Hks in Hc.
  - unfold py_slice_step in Hc. cbn [Z.eqb Z.ltb Z.compare Z.to_nat Pos.to_nat
      Pos.iter_op Nat.add] in Hc.
    rewrite every_nth_one, length_map, length_seq in Hc. rewrite Hc.
    do 2 f_equal. destruct data as [rows c]. cbn [nd_rows nd_ncols] in *.
    f_equal. rewrite <- (map_id rows) at 2. apply map_ext_in.
    intros r Hr. rewrite Forall_forall in Hwf. rewrite <- (Hwf r Hr).
    apply map_nth_seq.
  - apply Forall_forall. intros i Hi. apply in_map_iff in Hi.
    destruct Hi as [n [<- Hn]]. apply in_seq in Hn. lia.
Qed.

End PutData.

Lemma put_data_enqueues_witness :
  exists block,
    q (snd (put_data (column_block [1; 2; 3]) default_osc)) = [] ++ [block] /\
    nd_ncols block = 1%nat.
Proof.
  destruct (put_data_enqueues (column_block [1; 2; 3]) default_osc
              (snd (put_data (column_block [1; 2; 3]) default_osc)) eq_refl)
    as (block & _ & Hq & Hc & _).
  exists block. split; [exact Hq|exact Hc].
Defined.

Lemma put_data_samples_witness :
  exists block,
    q (snd (put_data (column_block [1; 2; 3]) default_osc)) = [] ++ [block].
Proof.
  destruct (put_data_samples (column_block [1; 2; 3]) default_osc
              (snd (put_data (column_block [1; 2; 3]) default_osc)) 0 0)
    as (block & Hq & _).
  - reflexivity.
  - repeat constructor; cbv; discriminate.
  - reflexivity.
  - exists block. exact Hq.
Defined.

Lemma put_data_identity_witness :
  put_data (column_block [1; 2; 3]) default_osc
  = (None, q_put (column_block [1; 2; 3]) default_osc).
Proof.
  apply (put_data_identity (column_block [1; 2; 3]) default_osc).
  - reflexivity.
  - reflexivity.
  - repeat constructor.
Defined.

(** * The configuration of [main.py] *)

Section Main.
Context {T : Type} `{Scalar T}.
Implicit Types (s : Oscilloscope T) (data : ndarray T).

Lemma fold_left_max_ge (l : list Z) (x : Z) : x <= fold_left Z.max l x.
Proof.
  revert x. induction l as [|y l IH]; intros x; cbn [fold_left]; [lia|].
  specialize (IH (Z.max x y)). lia.
Qed.

Lemma fold_left_max_upper (l : list Z) (x c : Z) :
  In c l -> c <= fold_left Z.max l x.
Proof.
  revert x. induction l as [|y l IH]; intros x; cbn [fold_left In]; [tauto|].
  intros [->|Hin]; [|now apply IH].
  pose proof (fold_left_max_ge l (Z.max x c)). lia.
Qed.

Lemma fold_left_max_in (l : list Z) (x : Z) : In (fold_left Z.max l x) (x :: l).
Proof.
  revert x. induction l as [|y l IH]; intros x; cbn [fold_left]; [now left|].
  destruct (IH (Z.max x y)) as [Heq|Hin].
  - rewrite <- Heq. destruct (Z.max_spec x y) as [[_ ->]|[_ ->]];
      cbn [In]; tauto.
  - cbn [In]. tauto.
Qed.

Lemma py_max_list_upper (l : list Z) (m c : Z) :
  py_max_list l = Some m -> In c l -> c <= m.
Proof.
  destruct l as [|x rest]; [discriminate|]. cbn [py_max_list].
  intros [= <-] [<-|Hin]; [apply fold_left_max_ge|now apply fold_left_max_upper].
Qed.

(** What [main_osc] returns, by cases on the channel list. *)
Lemma main_osc_cases (channels : list Z) (w : Q) (dsample : Z) (ival now : Q) :
  (Exists (fun c => c < 1) channels /\
   main_osc (T := T) channels w dsample ival now = inl Parser_error_channel) \/
  (channels = [] /\
   main_osc (T := T) channels w dsample ival now = inl ValueError_max_empty) \/
  (exists m, Forall (fun c => 1 <= c <= m) channels /\ In m channels /\
             main_osc (T := T) channels w dsample ival now
             = inr (init (Z.to_nat m) w dsample ival channels now)).
Proof.
  unfold main_osc.
  destruct (existsb (fun c => c <? 1) channels) eqn:Hex.
  - left. split; [|reflexivity]. apply existsb_exists in Hex.
    apply Exists_exists. destruct Hex as [c [Hin Hc]]. exists c.
    split; [exact Hin|]. now apply Z.ltb_lt.
  - right. destruct (py_max_list channels) as [m|] eqn:Hm.
    + right. exists m. split; [|split; [|reflexivity]].
      * apply Forall_forall. intros c Hin. split.
        -- destruct (Z.ltb_spec c 1) as [Hlt|]; [|lia].
           exfalso. assert (Ht : existsb (fun c => c <? 1) channels = true).
           { apply existsb_exists. exists c. split; [exact Hin|].
             now apply Z.ltb_lt. }
           congruence.
        -- eapply py_max_list_upper; eassumption.
      * destruct channels as [|x rest]; [discriminate|].
        cbn [py_max_list] in Hm. injection Hm as <-. apply fold_left_max_in.
    + left. destruct channels; [now split|discriminate].
Qed.

(** X21: [main.py] builds an oscilloscope exactly for a non-empty channel
    list with no channel below 1: a channel below 1 is rejected by the
    parser, and the empty list passes the parser and raises ValueError in
    [max]. *)
Theorem main_osc_accepts_iff (channels : list Z) (w : Q) (dsample : Z)
  (ival now : Q) :
  ((exists s, main_osc (T := T) channels w dsample ival now = inr s) <->
   channels <> [] /\ Forall (fun c => 1 <= c) channels) /\
  (main_osc (T := T) channels w dsample ival now = inl Parser_error_channel <->
   Exists (fun c => c < 1) channels) /\
  (main_osc (T := T) channels w dsample ival now = inl ValueError_max_empty <->
   channels = []).
Proof.
  destruct (main_osc_cases channels w dsample ival now)
    as [[Hex ->]|[[-> ->]|(m & Hall & Hin & ->)]].
  - split; [|split].
    + split; [intros [s Hs]; discriminate|].
      intros [_ Hall]. exfalso. apply Exists_exists in Hex.
      destruct Hex as [c [Hin Hc]]. rewrite Forall_forall in Hall.
      specialize (Hall c Hin). lia.
    + tauto.
    + split; [discriminate|]. intros ->. inversion Hex.
  - split; [|split].
    + split; [intros [s Hs]; discriminate|]. intros [Hne _]. now elim Hne.
    + split; [discriminate|]. intros Hex. inversion Hex.
    + tauto.
  - split; [|split].
    + split; [|eauto]. intros _. split.
      * intros ->. inversion Hin.
      * eapply Forall_impl; [|exact Hall]. cbn. intros; lia.
    + split; [discriminate|]. intros Hex. exfalso.
      apply Exists_exists in Hex. destruct Hex as [c [Hc Hlt]].
      rewrite Forall_forall in Hall. specialize (Hall c Hc). lia.
    + split; [discriminate|]. intros ->. inversion Hin.
Qed.

(** A non-empty list sliced with a step keeps between one element and all. *)
Lemma py_slice_step_bounds {A} (step : Z) (l rows : list A) :
  py_slice_step step l = Some rows ->
  (1 <= length l)%nat -> (1 <= length rows <= length l)%nat.
Proof.
  intros Hr Hn.
  assert (Hd : step <> 0)
    by (apply (proj1 (py_slice_step_some step l)); eauto).
  apply py_slice_step_length in Hr. rewrite Hr.
  assert (Hpos : (1 <= Z.abs_nat step)%nat) by lia.
  split.
  - apply Nat.div_le_lower_bound; lia.
  - apply Nat.Div0.div_le_upper_bound. nia.
Qed.

(** The state [main.py] starts from, and the block that the capture callback
    enqueues in it. *)
Lemma main_put_block (channels : list Z) (w : Q) (dsample : Z) (ival now : Q)
  s data :
  main_osc channels w dsample ival now = inr s ->
  nd_ncols data = nd_ncols (plotdata s) -> dsample <> 0 ->
  Forall (fun i => 0 <= i < Z.of_nat (nd_ncols (plotdata s))) (channel_mapping s) /\
  q s = [] /\ nd_len (plotdata s) = capacity /\
  (reachable s /\ downsample s = dsample /\
   channel_mapping s = map (fun c => c - 1) channels) /\
  exists block,
    put_data data s = (None, q_put block s) /\
    nd_ncols block = length channels /\
    ((1 <= nd_len data)%nat -> (1 <= nd_len block <= nd_len data)%nat).
Proof.
  intros Hm Hc Hd.
  destruct (main_osc_cases channels w dsample ival now)
    as [[_ Hm']|[[_ Hm']|(m & Hall & Hin & Hm')]];
    rewrite Hm' in Hm; try discriminate.
  injection Hm as <-.
  assert (Hmap : Forall (fun i => 0 <= i < Z.of_nat (Z.to_nat m))
                        (map (fun c => c - 1) channels)).
  { apply Forall_forall. intros i Hi. apply in_map_iff in Hi.
    destruct Hi as [c [<- Hci]]. rewrite Forall_forall in Hall.
    specialize (Hall c Hci). lia. }
  split; [exact Hmap|]. split; [reflexivity|].
  split; [apply (inv_rows _ (inv_init _ _ _ _ _ _))|].
  split.
  { split; [|split; reflexivity].
    exists (Z.to_nat m), w, dsample, ival, channels, now. constructor. }
  pose proof (put_data_cases data (init (Z.to_nat m) w dsample ival channels now))
    as Hcase.
  change (downsample (init (Z.to_nat m) w dsample ival channels now))
    with dsample in Hcase.
  change (channel_mapping (init (Z.to_nat m) w dsample ival channels now))
    with (map (fun c => c - 1) channels) in Hcase.
  change (nd_ncols (plotdata (init (T := T) (Z.to_nat m) w dsample ival channels now)))
    with (Z.to_nat m) in Hc.
  rewrite Hc, (py_indices_nonneg _ _ Hmap) in Hcase.
  destruct (proj2 (py_slice_step_some dsample (nd_rows data)) Hd) as [rows Hr].
  rewrite Hr in Hcase. eexists. split; [exact Hcase|].
  split; [cbn [nd_ncols]; apply length_map|].
  unfold nd_len. cbn [nd_rows]. rewrite length_map.
  now apply (py_slice_step_bounds dsample).
Qed.

(** X22: for the oscilloscope that [main.py] builds, the channel selection of
    the capture callback cannot fail: every index of channel_mapping is inside
    the stream's channel count, so for a captured block with that many
    columns and a downsample other than 0, put_data enqueues a block with one
    column per selected channel. *)
Theorem main_capture_selects_channels (channels : list Z) (w : Q)
  (dsample : Z) (ival now : Q) s data :
  main_osc channels w dsample ival now = inr s ->
  nd_ncols data = nd_ncols (plotdata s) -> dsample <> 0 ->
  Forall (fun i => 0 <= i < Z.of_nat (nd_ncols (plotdata s))) (channel_mapping s) /\
  exists block,
    put_data data s = (None, q_put block s) /\
    nd_ncols block = length channels.
Proof.
  intros Hm Hc Hd.
  destruct (main_put_block channels w dsample ival now s data Hm Hc Hd)
    as (Hmap & _ & _ & _ & block & Hput & Hbc & _).
  split; [exact Hmap|]. exists block. now split.
Qed.

(** A push of a block whose columns do not broadcast raises. *)
Lemma push_columns_do_not_broadcast (plotdata data : ndarray T) :
  (1 <= nd_len data)%nat -> (nd_len data <= nd_len plotdata)%nat ->
  nd_ncols data <> nd_ncols plotdata -> nd_ncols data <> 1%nat ->
  fst (push plotdata data)
  = Some (ValueError_broadcast (nd_len data, nd_ncols data)
            (nd_len data, nd_ncols plotdata)).
Proof.
  intros H1 H2 Hc Hc1. unfold push, nd_assign_tail. rewrite nd_roll_len.
  destruct (nd_len data =? 0)%nat eqn:E0; [apply Nat.eqb_eq in E0; lia|].
  replace (nd_len plotdata - (nd_len plotdata - nd_len data))%nat
    with (nd_len data) by lia.
  unfold axis_broadcasts. rewrite Nat.eqb_refl. cbn [nd_roll nd_ncols orb andb].
  destruct (Nat.eqb_spec (nd_ncols data) (nd_ncols plotdata)); [contradiction|].
  destruct (Nat.eqb_spec (nd_ncols data) 1); [contradiction|].
  reflexivity.
Qed.

(** X23: when the channels chosen on the command line are several but not
    all of 1 .. max, the stream has more channels than the blocks that
    put_data selects, and the first tick after a captured block raises the
    broadcast error: the block has len(channels) columns, the buffer
    max(channels). *)
Theorem main_channel_gap_breaks_tick (channels : list Z) (w : Q)
  (dsample : Z) (ival now : Q) s data (frame : Z) (t : Q) :
  main_osc channels w dsample ival now = inr s ->
  length channels <> nd_ncols (plotdata s) -> length channels <> 1%nat ->
  nd_ncols data = nd_ncols (plotdata s) -> dsample <> 0 ->
  (1 <= nd_len data)%nat -> (nd_len data <= capacity)%nat ->
  fst (put_data data s) = None /\
  exists r,
    fst (update_plot frame t (snd (put_data data s)))
    = Raised (ValueError_broadcast (r, length channels) (r, nd_ncols (plotdata s))).
Proof.
  intros Hm Hgap Hone Hc Hd Hn1 Hn2.
  destruct (main_put_block channels w dsample ival now s data Hm Hc Hd)
    as (_ & Hq & Hpd & _ & block & Hput & Hbc & Hbl).
  rewrite Hput. cbn [fst snd]. split; [reflexivity|].
  exists (nd_len block). specialize (Hbl Hn1).
  assert (Hpush : fst (push (plotdata s) block)
                  = Some (ValueError_broadcast (nd_len block, nd_ncols block)
                            (nd_len block, nd_ncols (plotdata s)))).
  { apply push_columns_do_not_broadcast.
    - lia.
    - rewrite Hpd. lia.
    - congruence.
    - congruence. }
  unfold update_plot. cbn [q_put set_q q plotdata]. rewrite Hq. cbn [app drain].
  destruct (push (plotdata s) block) as [[e|] pd]; cbn [fst] in Hpush;
    [|discriminate].
  injection Hpush as ->. cbn [fst]. now rewrite Hbc.
Qed.

End Main.

Lemma main_capture_selects_channels_witness :
  exists block,
    put_data (mk_ndarray [[1 # 1; 2 # 1]%Q] 2) (init 2 (1024 # 1) 1 (30 # 1) [1; 2] 0)
    = (None, q_put block (init (T := Q) 2 (1024 # 1) 1 (30 # 1) [1; 2] 0)) /\
    nd_ncols block = 2%nat.
Proof.
  destruct (main_capture_selects_channels (T := Q) [1; 2] (1024 # 1) 1 (30 # 1) 0
              (init 2 (1024 # 1) 1 (30 # 1) [1; 2] 0) (mk_ndarray [[1 # 1; 2 # 1]%Q] 2))
    as (_ & block & Hput & Hc).
  - reflexivity.
  - reflexivity.
  - discriminate.
  - exists block. split; [exact Hput|exact Hc].
Defined.

Lemma main_channel_gap_breaks_tick_witness :
  exists r,
    fst (update_plot 0 0
           (snd (put_data (mk_ndarray [[1 # 1; 2 # 1; 3 # 1]%Q] 3)
                   (init (T := Q) 3 (1024 # 1) 1 (30 # 1) [1; 3] 0))))
    = Raised (ValueError_broadcast (r, 2%nat) (r, 3%nat)).
Proof.
  destruct (main_channel_gap_breaks_tick (T := Q) [1; 3] (1024 # 1) 1 (30 # 1) 0
              (init 3 (1024 # 1) 1 (30 # 1) [1; 3] 0) (mk_ndarray [[1 # 1; 2 # 1; 3 # 1]%Q] 3)
              0 0)
    as (_ & r & Hr).
  - reflexivity.
  - change (2%nat <> 3%nat). discriminate.
  - discriminate.
  - reflexivity.
  - discriminate.
  - change (1 <= 1)%nat. lia.
  - change (1 <= capacity)%nat. unfold capacity. lia.
  - exists r. exact Hr.
Defined.

(** * The moving average, sample by sample *)

Section Average.

Lemma np_roll_nth_forward {A} (a : list A) (s : Z) (i : nat) (d : A) :
  0 < s -> (Z.to_nat s <= i)%nat -> (i < length a)%nat ->
  nth i (np_roll a s) d = nth (i - Z.to_nat s) a d.
Proof.
  intros Hs Hm Hi. unfold np_roll.
  destruct (Z.eqb_spec (Z.of_nat (length a)) 0) as [E|E]; [lia|].
  assert (Hk : Z.to_nat ((- s) mod Z.of_nat (length a))
               = (length a - Z.to_nat s)%nat).
  { replace (- s)
      with (Z.of_nat (length a - Z.to_nat s) + (-1) * Z.of_nat (length a))
      by lia.
    rewrite Z.mod_add by lia. rewrite Z.mod_small by lia. lia. }
  rewrite Hk. rewrite app_nth2 by (rewrite length_skipn; lia).
  rewrite length_skipn.
  replace (length a - (length a - Z.to_nat s))%nat with (Z.to_nat s) by lia.
  rewrite nth_firstn.
  destruct (Nat.ltb_spec (i - Z.to_nat s) (length a - Z.to_nat s));
    [reflexivity|lia].
Qed.

Lemma nth_map_seq {B} (f : nat -> B) (lo n i : nat) (d : B) :
  (i < n)%nat -> nth i (map f (seq lo n)) d = f (lo + i)%nat.
Proof.
  intros Hi. rewrite (nth_indep _ d (f 0%nat)) by now rewrite length_map, length_seq.
  rewrite (map_nth f (seq lo n) 0%nat i). now rewrite seq_nth.
Qed.

Lemma nth_map_default {B C} (f : B -> C) (l : list B) (i : nat) (b : B) (c : C) :
  (i < length l)%nat -> nth i (map f l) c = f (nth i l b).
Proof.
  intros Hi. rewrite (nth_indep _ c (f b)) by now rewrite length_map.
  apply map_nth.
Qed.

Lemma nth_repeat_lt {B} (x d : B) (n i : nat) :
  (i < n)%nat -> nth i (repeat x n) d = x.
Proof.
  revert i. induction n as [|n IH]; intros i Hi; [lia|].
  destruct i as [|i]; cbn [repeat nth]; [reflexivity|]. apply IH. lia.
Qed.

(** The sum that [conv_at] forms, against ones, is the sum of the samples. *)
Lemma fold_left_ones (col : list Q) (m k : nat) (l : list nat) (x : Q) :
  Forall (fun i => (k - i < m)%nat) l ->
  (fold_left
     (fun acc i => s_add acc (s_mul (nth i col (s_of_Z 0))
                                (nth (k - i) (repeat (s_of_Z 1) m) (s_of_Z 0))))
     l x
   == x + fold_right Qplus 0 (map (fun j => nth j col 0) l))%Q.
Proof.
  intros Hall. revert x. induction Hall as [|i l Hi _ IH]; intros x;
    cbn [fold_left fold_right map].
  - ring.
  - rewrite IH. rewrite (nth_repeat_lt _ _ _ _ Hi).
    cbn [s_add s_mul s_of_Z Scalar_Q].
    change (inject_Z 0) with 0%Q. change (inject_Z 1) with 1%Q. ring.
Qed.

Lemma conv_at_ones (col : list Q) (m k : nat) :
  (1 <= m)%nat -> (m - 1 <= k)%nat -> (k < length col)%nat ->
  (conv_at col (repeat (s_of_Z 1) m) k
   == fold_right Qplus 0 (map (fun j => nth j col 0) (seq (k - (m - 1)) m)))%Q.
Proof.
  intros Hm Hk Hn. unfold conv_at. rewrite repeat_length.
  replace (Nat.min k (length col - 1)) with k by lia.
  replace (S k - (k - (m - 1)))%nat with m by lia.
  rewrite (fold_left_ones col m k).
  - cbn [s_of_Z Scalar_Q]. change (inject_Z 0) with 0%Q. ring.
  - apply Forall_forall. intros i Hi. apply in_seq in Hi. lia.
Qed.

(** X24: the moving average over Q, sample by sample.  For avg > 1 and a
    column of at least avg samples, the series has the length of the column,
    and away from the wrapped start (from index 2 * avg - 1 - (avg - 1) / 2
    on) its sample i is the mean of the avg samples of the column that end
    at index i - avg + (avg - 1) / 2: the trace is the centred moving average
    delayed by avg samples. *)
Theorem moving_average_is_delayed_mean (avg : Z) (col : list Q) :
  1 < avg -> (Z.to_nat avg <= length col)%nat ->
  exists line,
    display_series avg col = inr line /\ length line = length col /\
    forall i : nat,
      (2 * Z.to_nat avg - 1 - (Z.to_nat avg - 1) / 2 <= i)%nat ->
      (i < length col)%nat ->
      (nth i line 0
       == window_mean col (i + (Z.to_nat avg - 1) / 2 + 1 - 2 * Z.to_nat avg)
            (Z.to_nat avg))%Q.
Proof.
  intros Havg Hlen. set (m := Z.to_nat avg) in *.
  assert (Hm : (2 <= m)%nat) by (unfold m; lia).
  assert (Hh : ((m - 1) / 2 <= m - 1)%nat)
    by (apply Nat.Div0.div_le_upper_bound; lia).
  unfold display_series. destruct (Z.gtb_spec avg 1) as [_|]; [|lia].
  unfold np_convolve_same, np_ones. fold m. rewrite repeat_length.
  destruct (Nat.ltb_spec (length col) m) as [|_]; [lia|].
  destruct col as [|c0 col']; [cbn [length] in Hlen; lia|].
  set (col := c0 :: col') in *.
  destruct (repeat (s_of_Z 1) m) as [|o ones'] eqn:Hones.
  { apply (f_equal (@length Q)) in Hones. rewrite repeat_length in Hones.
    cbn [length] in Hones. lia. }
  rewrite <- Hones. clear o ones' Hones.
  eexists. split; [reflexivity|]. split.
  { now rewrite np_roll_length, !length_map, length_seq. }
  intros i Hi Hin.
  rewrite repeat_length.
  rewrite np_roll_nth_forward;
    [|lia|fold m; lia|now rewrite !length_map, length_seq].
  fold m.
  rewrite (nth_map_default _ _ _ 0%Q) by (rewrite length_map, length_seq; lia).
  rewrite nth_map_seq by lia. cbn [Nat.add].
  rewrite conv_at_ones by lia.
  unfold window_mean. cbn [s_div s_of_Z Scalar_Q].
  replace (i - m + (m - 1) / 2 - (m - 1))%nat with (i + (m - 1) / 2 + 1 - 2 * m)%nat
    by lia.
  replace (Z.of_nat m) with avg by (unfold m; lia). reflexivity.
Qed.

End Average.

Lemma moving_average_is_delayed_mean_witness :
  exists line,
    display_series 3 [1; 2; 3; 4; 5; 6]%Q = inr line /\
    (nth 4 line 0 == window_mean [1; 2; 3; 4; 5; 6] 0 3)%Q.
Proof.
  destruct (moving_average_is_delayed_mean 3 [1; 2; 3; 4; 5; 6]%Q)
    as (line & Hd & _ & Hi).
  - reflexivity.
  - cbn. lia.
  - exists line. split; [exact Hd|]. apply (Hi 4%nat); vm_compute; lia.
Defined.

(** * The x axis: which samples the window shows *)

Section Xvals.

Lemma np_arange_nil (start stop : Z) : stop <= start -> np_arange start stop = [].
Proof.
  intros Hs. unfold np_arange. replace (Z.to_nat (stop - start)) with 0%nat by lia.
  reflexivity.
Qed.

Lemma np_arange_cons (start stop : Z) :
  start < stop -> np_arange start stop = start :: np_arange (start + 1) stop.
Proof.
  intros Hs. unfold np_arange.
  replace (Z.to_nat (stop - start)) with (S (Z.to_nat (stop - (start + 1)))) by lia.
  cbn [seq map]. f_equal; [lia|].
  rewrite <- seq_shift, map_map. apply map_ext. intros i. lia.
Qed.

Lemma np_arange_length (start stop : Z) :
  length (np_arange start stop) = Z.to_nat (stop - start).
Proof. unfold np_arange. now rewrite length_map, length_seq. Qed.

Lemma np_arange_in (start stop x : Z) :
  In x (np_arange start stop) -> start <= x < stop.
Proof.
  unfold np_arange. intros Hx. apply in_map_iff in Hx.
  destruct Hx as [i [<- Hi]]. apply in_seq in Hi. lia.
Qed.

Lemma filter_np_arange (a start stop : Z) :
  filter (fun x => a <=? x) (np_arange start stop)
  = np_arange (Z.max start a) stop.
Proof.
  remember (Z.to_nat (stop - start)) as n eqn:En. revert start En.
  induction n as [|n IH]; intros start En.
  - rewrite !np_arange_nil by lia. reflexivity.
  - rewrite (np_arange_cons start stop) by lia. cbn [filter].
    rewrite (IH (start + 1)) by lia.
    destruct (Z.leb_spec a start).
    + replace (Z.max (start + 1) a) with (start + 1) by lia.
      replace (Z.max start a) with start by lia.
      now rewrite (np_arange_cons start stop) by lia.
    + f_equal. lia.
Qed.

(** An integer x value is right of [- w] exactly from [- floor w] on. *)
Lemma left_limit_floor (w : Q) (x : Z) :
  Qle_bool (- w) (inject_Z x) = (- Qfloor w <=? x).
Proof.
  apply eq_true_iff_eq. rewrite Qle_bool_iff, Z.leb_le. split.
  - intros Hx. assert (Hw : (inject_Z (- x) <= w)%Q).
    { rewrite inject_Z_opp. lra. }
    apply Qfloor_resp_le in Hw. rewrite Qfloor_Z in Hw. lia.
  - intros Hx. assert (Hw : (inject_Z (- x) <= inject_Z (Qfloor w))%Q).
    { rewrite <- Zle_Qle. lia. }
    pose proof (Qfloor_le w) as Hf. rewrite inject_Z_opp in Hw. lra.
Qed.

Lemma capacity_Z : Z.of_nat capacity = 65536.
Proof. unfold capacity. lia. Qed.

Context {T : Type} `{Scalar T}.
Implicit Types s : Oscilloscope T.

(** X25: the samples that the x limits show.  In every reachable state the x
    values inside the x limits [-window, 0] are the integers from
    max(-65535, -floor(window)) to 0: the plot shows the newest
    floor(window) + 1 samples of the buffer, one more than the window, and
    all 65536 once the window is 65535 or more. *)
Theorem window_shows_one_sample_more s :
  reachable s ->
  visible_xvals s = np_arange (Z.max (- 65535) (- Qfloor (window s))) 1 /\
  length (visible_xvals s) = Z.to_nat (Z.min 65536 (Qfloor (window s) + 1)).
Proof.
  intros Hr. pose proof (reachable_invariant s Hr) as Hinv.
  assert (Hv : visible_xvals s
               = np_arange (Z.max (- 65535) (- Qfloor (window s))) 1).
  { unfold visible_xvals, xvals.
    rewrite (inv_xlim _ Hinv), capacity_Z.
    rewrite (filter_ext_in _ (fun x => - Qfloor (window s) <=? x)).
    - apply filter_np_arange.
    - intros x Hx. apply np_arange_in in Hx. unfold in_xlim. cbn [fst snd].
      rewrite left_limit_floor.
      assert (Hz : Qle_bool (inject_Z x) 0 = true).
      { apply Qle_bool_iff. change 0%Q with (inject_Z 0). rewrite <- Zle_Qle. lia. }
      rewrite Hz. apply andb_true_r. }
  split; [exact Hv|]. rewrite Hv, np_arange_length. lia.
Qed.

(** X26: the legend of [setup_plot] for a stream of n >= 2 channels has the
    n - 1 labels 'channel 1' .. 'channel n-1', one fewer than the n lines of
    the plot, so the last line has no entry; for n < 2 no legend is made. *)
Theorem legend_is_one_label_short (n : nat) (w : Q) (dsample : Z) (ival : Q)
  (chans : list Z) (now : Q) :
  length (lines (init (T := T) n w dsample ival chans now)) = n /\
  ((n < 2)%nat -> legend_labels n = None) /\
  ((2 <= n)%nat ->
   exists labels,
     legend_labels n = Some labels /\
     (length labels + 1)%nat = n /\
     forall i : nat, (i < n - 1)%nat ->
       nth i labels EmptyString
       = String.append "channel " (NilEmpty.string_of_uint (Nat.to_uint (S i)))).
Proof.
  split; [|split].
  - cbn [init set_yzoom set_window set_yzoom_field set_ylim set_xlim lines].
    now rewrite length_map, length_seq.
  - intros Hn. unfold legend_labels.
    destruct (Nat.ltb_spec 1 n); [lia|reflexivity].
  - intros Hn. unfold legend_labels.
    destruct (Nat.ltb_spec 1 n); [|lia].
    eexists. split; [reflexivity|]. split.
    + rewrite length_map, length_seq. lia.
    + intros i Hi.
      rewrite (nth_indep _ EmptyString
                 (String.append "channel "
                    (NilEmpty.string_of_uint (Nat.to_uint 0))))
        by now rewrite length_map, length_seq.
      rewrite (map_nth (fun c => String.append "channel "
                                   (NilEmpty.string_of_uint (Nat.to_uint c)))
                 (seq 1 (n - 1)) 0%nat i).
      now rewrite seq_nth.
Qed.

End Xvals.

Lemma window_shows_one_sample_more_witness :
  length (visible_xvals default_osc) = Z.to_nat 1025.
Proof.
  exact (proj2 (window_shows_one_sample_more default_osc default_osc_reachable)).
Defined.

Lemma legend_is_one_label_short_witness :
  exists labels,
    legend_labels 3 = Some labels /\
    nth 1 labels EmptyString = "channel 2"%string.
Proof.
  destruct (legend_is_one_label_short (T := Q) 3 (1024 # 1) 1 (30 # 1) [1] 0)
    as (_ & _ & Hl).
  destruct Hl as (labels & Hs & _ & Hi); [lia|].
  exists labels. split; [exact Hs|]. apply (Hi 1%nat). lia.
Defined.

(** * From the capture callback to the display buffer *)

Section CaptureToDisplay.
Context {T : Type} `{Scalar T}.
Implicit Types (s : Oscilloscope T) (data : ndarray T).

(** The block that [put_data] enqueues for a positive downsample and channel
    indices that are not negative. *)
Lemma put_data_forward data s :
  0 < downsample s ->
  Forall (fun i => 0 <= i < Z.of_nat (nd_ncols data)) (channel_mapping s) ->
  put_data data s
  = (None,
     q_put (mk_ndarray
              (map (fun r => map (fun k => nth k r (s_of_Z 0))
                                 (map Z.to_nat (channel_mapping s)))
                   (every_nth 0 (Z.to_nat (downsample s)) (nd_rows data)))
              (length (channel_mapping s))) s).
Proof.
  intros Hd Hall. pose proof (put_data_cases data s) as Hc.
  rewrite (py_indices_nonneg _ _ Hall) in Hc. unfold py_slice_step in Hc.
  destruct (Z.eqb_spec (downsample s) 0); [lia|].
  destruct (Z.ltb_spec 0 (downsample s)); [|lia]. exact Hc.
Qed.

Lemma selected_sample (cm : list Z) (rows : list (list T)) (k j : nat) :
  (k < length rows)%nat -> (j < length cm)%nat ->
  nth j (nth k (map (fun r => map (fun k0 => nth k0 r (s_of_Z 0))
                                  (map Z.to_nat cm)) rows) [])
        (s_of_Z 0)
  = nth (Z.to_nat (nth j cm 0)) (nth k rows []) (s_of_Z 0).
Proof.
  intros Hk Hj.
  set (g := fun r : list T =>
              map (fun k0 : nat => nth k0 r (s_of_Z 0)) (map Z.to_nat cm)).
  rewrite (nth_indep (map g rows) [] (g [])) by now rewrite length_map.
  rewrite (map_nth g rows [] k). unfold g.
  rewrite (nth_indep _ (s_of_Z 0) (nth 0%nat (nth k rows []) (s_of_Z 0)))
    by now rewrite !length_map.
  rewrite (map_nth (fun k0 => nth k0 (nth k rows []) (s_of_Z 0))
             (map Z.to_nat cm) 0%nat j).
  change 0%nat with (Z.to_nat 0) at 1.
  now rewrite (map_nth Z.to_nat cm 0 j).
Qed.

(** X27: from the capture callback to the display, for the oscilloscope that
    [main.py] builds with as many selected channels as the stream has, a
    positive downsample d and a captured block of 1 to 65536 rows: put_data
    enqueues a block, the next tick returns with the queue empty, and the
    newest rows of the buffer hold the block: row 65536 - len(block) + k,
    column j of the buffer is the sample of row k * d of the captured block
    in the column of channel channels[j]. *)
Theorem main_block_reaches_display (channels : list Z) (w : Q) (dsample : Z)
  (ival now : Q) s data (frame : Z) (t : Q) :
  main_osc channels w dsample ival now = inr s ->
  length channels = nd_ncols (plotdata s) ->
  0 < dsample ->
  nd_ncols data = nd_ncols (plotdata s) ->
  (1 <= nd_len data)%nat -> (nd_len data <= capacity)%nat ->
  exists block,
    put_data data s = (None, q_put block s) /\
    (1 <= nd_len block <= nd_len data)%nat /\
    fst (update_plot frame t (q_put block s)) = Returned /\
    q (snd (update_plot frame t (q_put block s))) = [] /\
    forall k j : nat,
      (k < nd_len block)%nat -> (j < length channels)%nat ->
      nth j (nth (capacity - nd_len block + k)
                 (nd_rows (plotdata (snd (update_plot frame t (q_put block s)))))
                 [])
            (s_of_Z 0)
      = nth (Z.to_nat (nth j channels 1 - 1))
            (nth (k * Z.to_nat dsample) (nd_rows data) []) (s_of_Z 0).
Proof.
  intros Hm Hlen Hd Hc Hn1 Hn2.
  destruct (main_put_block channels w dsample ival now s data Hm Hc)
    as (Hmap & Hq & Hpd & (Hreach & Hds & Hcm) & _); [lia|].
  rewrite <- Hc in Hmap.
  pose proof (put_data_forward data s) as Hput.
  rewrite Hds in Hput. specialize (Hput Hd Hmap).
  set (rows := every_nth 0 (Z.to_nat dsample) (nd_rows data)) in *.
  set (block := mk_ndarray _ _) in Hput.
  assert (Hrows : (1 <= length rows <= nd_len data)%nat).
  { apply (py_slice_step_bounds dsample (nd_rows data)); [|exact Hn1].
    unfold py_slice_step. destruct (Z.eqb_spec dsample 0); [lia|].
    destruct (Z.ltb_spec 0 dsample); [reflexivity|lia]. }
  assert (Hbl : nd_len block = length rows).
  { unfold block, nd_len. cbn [nd_rows]. apply length_map. }
  assert (Hbc : nd_ncols block = nd_ncols (plotdata s)).
  { unfold block. cbn [nd_ncols]. rewrite Hcm, length_map. exact Hlen. }
  assert (Hfit : Forall (fits (plotdata s)) (q (q_put block s))).
  { unfold q_put. cbn [q set_q]. rewrite Hq. cbn [app].
    constructor; [|constructor]. unfold fits. rewrite Hbl, Hpd.
    split; [lia|]. split; [lia|exact Hbc]. }
  assert (Hdrain := drain_ok _ _ Hfit).
  assert (Hr2 : reachable (q_put block s)).
  { destruct Hreach as (c0 & w0 & d0 & i0 & ch0 & t0 & Hr0).
    exists c0, w0, d0, i0, ch0, t0. now apply reach_put. }
  pose proof (update_plot_buffer frame t (q_put block s)) as Hbuf.
  change (plotdata (q_put block s)) with (plotdata s) in Hbuf.
  rewrite Hdrain in Hbuf. cbn [snd] in Hbuf. injection Hbuf as Hq' Hpd'.
  exists block. split; [exact Hput|]. split; [rewrite Hbl; exact Hrows|].
  split.
  { apply (update_plot_returns frame t (q_put block s)).
    - now apply reachable_invariant.
    - change (plotdata (q_put block s)) with (plotdata s).
      now rewrite Hdrain. }
  split; [exact Hq'|].
  intros k j Hk Hj. rewrite Hpd'. cbn [nd_rows].
  unfold q_put. cbn [q set_q]. rewrite Hq. cbn [app block_rows map concat].
  rewrite app_nil_r.
  rewrite lastn_app_short by (fold (nd_len block) (nd_len (plotdata s)); lia).
  fold (nd_len block) (nd_len (plotdata s)). rewrite Hpd.
  rewrite app_nth2 by (rewrite lastn_length; fold (nd_len (plotdata s)); lia).
  rewrite lastn_length by (fold (nd_len (plotdata s)); lia).
  replace (capacity - nd_len block + k - (capacity - nd_len block))%nat with k
    by lia.
  unfold block. cbn [nd_rows]. rewrite selected_sample; [|lia|].
  - rewrite Hcm.
    change 0 with ((fun c => c - 1) 1) at 1. rewrite map_nth.
    unfold rows. rewrite every_nth_nth by lia. reflexivity.
  - rewrite Hcm, length_map. exact Hj.
Qed.

End CaptureToDisplay.

Lemma main_block_reaches_display_witness :
  exists block,
    put_data (mk_ndarray [[1 # 1; 2 # 1]%Q] 2)
      (init (T := Q) 2 (1024 # 1) 1 (30 # 1) [2; 1] 0)
    = (None, q_put block (init (T := Q) 2 (1024 # 1) 1 (30 # 1) [2; 1] 0)) /\
    fst (update_plot 0 0
           (q_put block (init (T := Q) 2 (1024 # 1) 1 (30 # 1) [2; 1] 0)))
    = Returned.
Proof.
  destruct (main_block_reaches_display (T := Q) [2; 1] (1024 # 1) 1 (30 # 1) 0
              (init 2 (1024 # 1) 1 (30 # 1) [2; 1] 0)
              (mk_ndarray [[1 # 1; 2 # 1]%Q] 2) 0 0)
    as (block & Hput & _ & Hret & _).
  - reflexivity.
  - reflexivity.
  - reflexivity.
  - reflexivity.
  - change (1 <= 1)%nat. lia.
  - change (1 <= capacity)%nat. unfold capacity. lia.
  - exists block. split; [exact Hput|exact Hret].
Defined.

(** * The scale of the secondary x axis *)

(** X28: over the rationals, for a positive sample rate, both timebases give
    a pair of functions; one second's worth of samples converts to 1000 on
    the 'ms' axis and to 1 on the 's' axis, the 'ms' reading is 1000 times
    the 's' reading, and all four functions are strictly increasing, as a
    secondary axis needs. *)
Theorem conversion_scale (samplerate : Q) :
  (0 < samplerate)%Q ->
  exists ms_time ms_samples s_time s_samples : Q -> Q,
    samples_time_conversion samplerate "ms" = inr (ms_time, ms_samples) /\
    samples_time_conversion samplerate "s" = inr (s_time, s_samples) /\
    (ms_time samplerate == 1000 # 1)%Q /\ (s_time samplerate == 1)%Q /\
    (forall x, ms_time x == (1000 # 1) * s_time x)%Q /\
    (forall x y, (x < y)%Q ->
       (ms_time x < ms_time y)%Q /\ (ms_samples x < ms_samples y)%Q /\
       (s_time x < s_time y)%Q /\ (s_samples x < s_samples y)%Q).
Proof.
  intros Hsr.
  assert (Hne : ~ (samplerate == 0)%Q) by (intros E; rewrite E in Hsr; lra).
  assert (Hinv : (0 < / samplerate)%Q) by now apply Qinv_lt_0_compat.
  do 4 eexists. split; [reflexivity|]. split; [reflexivity|].
  cbn [s_div s_mul s_of_Z Scalar_Q].
  change (inject_Z 1000) with (1000 # 1)%Q. change (inject_Z 1) with 1%Q.
  split; [field; exact Hne|]. split; [field; exact Hne|].
  split; [intros x; field; exact Hne|].
  intros x y Hxy. unfold Qdiv. repeat split.
  - apply Qmult_lt_compat_r; [exact Hinv|]. lra.
  - apply Qmult_lt_compat_r; [reflexivity|].
    apply Qmult_lt_compat_r; assumption.
  - apply Qmult_lt_compat_r; [exact Hinv|]. lra.
  - apply Qmult_lt_compat_r; [reflexivity|].
    apply Qmult_lt_compat_r; assumption.
Qed.

Lemma conversion_scale_witness :
  exists ms_time ms_samples : Q -> Q,
    samples_time_conversion (44100 # 1)%Q "ms" = inr (ms_time, ms_samples) /\
    (ms_time (44100 # 1) == 1000 # 1)%Q.
Proof.
  destruct (conversion_scale (44100 # 1)) as
    (f & g & _ & _ & Hms & _ & Hone & _); [reflexivity|].
  exists f, g. split; [exact Hms|exact Hone].
Defined.
